(** * Order fulfilment and payment reconciliation core of the 2Square backend

    A shallow embedding of the services that make up the core:

    - [src/services/coupon.service.ts]  (module [couponService]),
    - [src/services/order.service.ts]   (module [orderService]),
    - [src/services/cart.service.ts]    (module [cartService]),
    - [src/services/payment.service.ts] (module [paymentService]),

    together with the part of the PostgreSQL store they read and write.

    Modelling conventions.

    - Every [await query(...)] is one SQL statement sent through the
      connection pool with no surrounding BEGIN/COMMIT, so each statement
      is one atomic step on the store [Db.t]; a service function is the
      sequential composition of its statements.
    - A table with a primary key that is only read and written through
      that key ([products]) is a finite map from key to row; the other
      tables are lists of rows in insertion order, and [rows[0]] is the
      first matching row.
    - Quantities, counts and timestamps (milliseconds) are integers ([Z]).
    - A number that reaches the program as text (a JSON body, a query
      string, a DECIMAL column, which node-postgres hands over as a
      string) is the rational the text denotes ([Qc]).  The program holds
      the IEEE 754 double nearest to it, [Js.double]; where the program
      computes with doubles and the result is observable (the cents of a
      charge, a percentage discount) every operation is rounded as the
      hardware rounds it, and the result is the exact value of the
      resulting double.  A number handed back to the database as text is
      taken to print as the decimal it was read from, which holds for
      decimals of up to 15 significant digits.
    - The money columns [orders.total_amount], [payments.amount] and those
      of [products] and [coupons] are DECIMAL(10,2) and
      [payments.currency] is VARCHAR(3) (schema.sql): an inserted value is
      rounded to two decimals and refused when it needs more than eight
      digits before the point ([Pg.decimal_10_2]).
    - A thrown [Error(msg)] is [Throw msg].  Values generated outside the
      program (row ids from the database, [CURRENT_TIMESTAMP], ids and
      secrets handed out by the payment processor) are explicit arguments. *)

From Stdlib Require Import ZArith QArith Qcanon Qround Qpower Qabs Lqa Ascii String.
From stdpp Require Import base numbers option list strings gmap.

Local Open Scope string_scope.
Local Open Scope list_scope.
Local Open Scope Z_scope.

(** ** JavaScript values *)

Module Js.

(** [x < y] on numbers, as a boolean. *)
Definition ltb (x y : Qc) : bool := negb (Qle_bool y x).

(** Truthiness of a nullable INTEGER column, which node-postgres hands
    over as a number: [null] and [0] are falsy. *)
Definition truthy_int (v : option Z) : bool :=
  match v with
  | None => false
  | Some n => negb (n =? 0)
  end.

(** [String.prototype.toUpperCase] / [toLowerCase] on the ASCII range:
    other characters are left as they are, so the two are those of the
    program on ASCII strings ([is_ascii]). *)
Definition upper_ascii (c : ascii) : ascii :=
  let n := N_of_ascii c in
  if ((97 <=? n) && (n <=? 122))%N then ascii_of_N (n - 32) else c.

Definition lower_ascii (c : ascii) : ascii :=
  let n := N_of_ascii c in
  if ((65 <=? n) && (n <=? 90))%N then ascii_of_N (n + 32) else c.

Fixpoint toUpperCase (s : string) : string :=
  match s with
  | EmptyString => EmptyString
  | String c s' => String (upper_ascii c) (toUpperCase s')
  end.

Fixpoint toLowerCase (s : string) : string :=
  match s with
  | EmptyString => EmptyString
  | String c s' => String (lower_ascii c) (toLowerCase s')
  end.

(** Whether a string is made of ASCII characters only. *)
Fixpoint is_ascii (s : string) : bool :=
  match s with
  | EmptyString => true
  | String c s' => (N_of_ascii c <? 128)%N && is_ascii s'
  end.

(** *** IEEE 754 binary64

    A double is a rational [m × 2^e] with [|m| < 2^53].  [nearest x] is the
    double nearest to a positive rational, ties to the even significand;
    the range of the exponent is not limited (no overflow to [Infinity],
    no gradual underflow), which amounts of money do not meet. *)

(** Nearest integer, ties to even. *)
Definition rint (x : Q) : Z :=
  let f := Qfloor x in
  match Qcompare (x - inject_Z f)%Q (1 # 2) with
  | Lt => f
  | Gt => f + 1
  | Eq => if Z.even f then f else f + 1
  end.

(** The [k] with [2^k ≤ x < 2^(k+1)], for [0 < x]. *)
Definition binade (x : Q) : Z :=
  let l := Z.log2 (Qnum x) - Z.log2 (Zpos (Qden x)) in
  if Qle_bool (2 ^ l)%Q x then l else l - 1.

Definition nearest (x : Q) : Q :=
  let e := binade x - 52 in (inject_Z (rint (x / 2 ^ e)) * 2 ^ e)%Q.

Definition b64 (x : Q) : Q :=
  match Qcompare x 0 with
  | Eq => 0%Q
  | Gt => nearest x
  | Lt => (- nearest (- x))%Q
  end.

(** The double a numeric text is read as ([Number(text)], [parseFloat],
    a JSON number). *)
Definition double (x : Qc) : Qc := Q2Qc (b64 x).

(** [x * y] and [x / y] on doubles. *)
Definition mul (x y : Qc) : Qc := double (x * y)%Qc.

Definition div (x y : Qc) : Qc := double (x / y)%Qc.

(** [Math.round]: nearest integer, halves towards plus infinity. *)
Definition round (x : Qc) : Z := Qfloor (x + Q2Qc (1 # 2))%Qc.

(** The outcome of an [async] function: a value or a thrown [Error]. *)
Inductive result (A : Type) : Type :=
| Ok (value : A)
| Throw (message : string).
Arguments Ok {A} value.
Arguments Throw {A} message.

Definition is_ok {A} (r : result A) : bool :=
  match r with Ok _ => true | Throw _ => false end.

End Js.

Export Js(result, Ok, Throw).

(** A whole number of currency units as a rational. *)
Definition units (n : Z) : Qc := Qc_of_Z n.

(** ** PostgreSQL column types *)

Module Pg.

(** A value written to a DECIMAL(_,2) column is rounded to hundredths,
    halves away from zero. *)
Definition hundredths (x : Qc) : Z :=
  let c := (x * Q2Qc 100)%Qc in
  if Qle_bool 0 c then Qfloor (c + Q2Qc (1 # 2))%Qc
  else Qceiling (c - Q2Qc (1 # 2))%Qc.

(** DECIMAL(10,2): the rounded value, or [None] for the error
    "numeric field overflow" when it needs more than ten digits. *)
Definition decimal_10_2 (x : Qc) : option Qc :=
  let c := hundredths x in
  if Z.abs c <? 10 ^ 10 then Some (Q2Qc (c # 100)) else None.

(** VARCHAR(n): a string of more than [n] characters is refused (for an
    ASCII string, its length). *)
Definition varchar (n : nat) (s : string) : bool :=
  (String.length s <=? n)%nat.

End Pg.

(** ** Rows of the store

    The columns are those the services read or write.  [created_at], which
    no statement of the core reads or writes, is left out, and so are the
    key and timestamp of an order item and the [metadata] of a payment. *)

Module Product.
Record t := mk
  { id : string; name : string; price : Qc;
    stock_quantity : Z; is_active : bool }.
End Product.

Module CartItem.
Record t := mk
  { id : string; user_id : string; product_id : string; quantity : Z }.
End CartItem.

Record Address := mkAddress
  { street : string; city : string; state : string;
    zipCode : string; country : string }.

Module Order.
Record t := mk
  { id : string; user_id : string; total_amount : Qc; status : string;
    shipping_address : Address; billing_address : Address;
    payment_status : string; payment_method : string;
    updated_at : Z }.
End Order.

Module OrderItem.
Record t := mk
  { order_id : string; product_id : string; quantity : Z; price : Qc }.
End OrderItem.

Module Coupon.
Record t := mk
  { id : string; code : string; discount_type : string;
    discount_value : Qc; min_purchase_amount : Qc;
    max_discount_amount : option Qc; usage_limit : option Z;
    used_count : Z; valid_from : Z; valid_until : Z; is_active : bool }.
End Coupon.

Module Payment.
Record t := mk
  { id : string; order_id : string; amount : Qc; currency : string;
    payment_method : string; payment_intent_id : option string;
    status : string; transaction_id : option string; updated_at : Z }.
End Payment.

Module Db.
Record t := mk
  { products : gmap string Product.t;
    cart : list CartItem.t;
    orders : list Order.t;
    order_items : list OrderItem.t;
    coupons : list Coupon.t;
    payments : list Payment.t }.
End Db.

(** Functional updates of single tables. *)
Definition set_products (f : gmap string Product.t → gmap string Product.t)
    (db : Db.t) : Db.t :=
  Db.mk (f (Db.products db)) (Db.cart db) (Db.orders db)
        (Db.order_items db) (Db.coupons db) (Db.payments db).

Definition set_cart (f : list CartItem.t → list CartItem.t) (db : Db.t) : Db.t :=
  Db.mk (Db.products db) (f (Db.cart db)) (Db.orders db)
        (Db.order_items db) (Db.coupons db) (Db.payments db).

Definition set_orders (f : list Order.t → list Order.t) (db : Db.t) : Db.t :=
  Db.mk (Db.products db) (Db.cart db) (f (Db.orders db))
        (Db.order_items db) (Db.coupons db) (Db.payments db).

Definition set_order_items (f : list OrderItem.t → list OrderItem.t)
    (db : Db.t) : Db.t :=
  Db.mk (Db.products db) (Db.cart db) (Db.orders db)
        (f (Db.order_items db)) (Db.coupons db) (Db.payments db).

Definition set_coupons (f : list Coupon.t → list Coupon.t) (db : Db.t) : Db.t :=
  Db.mk (Db.products db) (Db.cart db) (Db.orders db)
        (Db.order_items db) (f (Db.coupons db)) (Db.payments db).

Definition set_payments (f : list Payment.t → list Payment.t) (db : Db.t) : Db.t :=
  Db.mk (Db.products db) (Db.cart db) (Db.orders db)
        (Db.order_items db) (Db.coupons db) (f (Db.payments db)).

(** ** coupon.service.ts *)

Module couponService.

(** The [message] field of a validation result.  The last rejection
    interpolates a number into its text,
    [`Minimum purchase amount is $${coupon.min_purchase_amount}`];
    the number is kept as a number. *)
Inductive message :=
| Text (s : string)
| MinimumPurchase (amount : Qc).

Record validation := mkValidation
  { valid : bool; discount : Qc; msg : option message }.

Definition reject (m : message) : validation :=
  {| valid := false; discount := 0%Qc; msg := Some m |}.

Definition accept (d : Qc) : validation :=
  {| valid := true; discount := d; msg := None |}.

(** [SELECT * FROM coupons WHERE code = $1 AND is_active = true], [rows[0]]. *)
Definition getByCode (db : Db.t) (code : string) : option Coupon.t :=
  find (λ c, String.eqb (Coupon.code c) (Js.toUpperCase code) && Coupon.is_active c)
       (Db.coupons db).

(** [validateCoupon(code, orderAmount)] at the time [now].  The DECIMAL
    columns of the coupon are strings: a string is compared and multiplied
    as the double it denotes, [coupon.max_discount_amount] is truthy
    whenever it is not NULL (also when it is ["0.00"]), and a capped or
    fixed discount is the column's value itself. *)
Definition validateCoupon (db : Db.t) (now : Z) (code : string)
    (orderAmount : Qc) : validation :=
  match getByCode db code with
  | None => reject (Text "Invalid coupon code")
  | Some coupon =>
    if (now <? Coupon.valid_from coupon) || (Coupon.valid_until coupon <? now) then
      reject (Text "Coupon has expired")
    else if Js.truthy_int (Coupon.usage_limit coupon)
            && (default 0 (Coupon.usage_limit coupon) <=? Coupon.used_count coupon) then
      reject (Text "Coupon usage limit reached")
    else if Js.ltb (Js.double orderAmount)
                   (Js.double (Coupon.min_purchase_amount coupon)) then
      reject (MinimumPurchase (Coupon.min_purchase_amount coupon))
    else
      let discount :=
        if String.eqb (Coupon.discount_type coupon) "percentage" then
          let discount :=
            Js.div (Js.mul (Js.double orderAmount)
                           (Js.double (Coupon.discount_value coupon)))
                   (Q2Qc 100) in
          match Coupon.max_discount_amount coupon with
          | Some cap => if Js.ltb (Js.double cap) discount then cap else discount
          | None => discount
          end
        else Coupon.discount_value coupon in
      accept discount
  end.

(** [UPDATE coupons SET used_count = used_count + 1 WHERE code = $1 RETURNING *] *)
Definition bump (c : Coupon.t) : Coupon.t :=
  Coupon.mk (Coupon.id c) (Coupon.code c) (Coupon.discount_type c)
    (Coupon.discount_value c) (Coupon.min_purchase_amount c)
    (Coupon.max_discount_amount c) (Coupon.usage_limit c)
    (Coupon.used_count c + 1) (Coupon.valid_from c) (Coupon.valid_until c)
    (Coupon.is_active c).

Definition code_matches (code : string) (c : Coupon.t) : bool :=
  String.eqb (Coupon.code c) (Js.toUpperCase code).

Definition applyCoupon (db : Db.t) (code : string) : Db.t * option Coupon.t :=
  let upd := λ c, if code_matches code c then bump c else c in
  let db' := set_coupons (map upd) db in
  (db', head (filter (λ c, code_matches code c = true) (Db.coupons db'))).

End couponService.

(** ** order.service.ts *)

Module orderService.

(** [z.infer<typeof createOrderSchema>]: the validated input. *)
Record CreateOrder := mkCreateOrder
  { userId : string; shippingAddress : Address;
    billingAddress : option Address; paymentMethod : string }.

(** The body of [POST /api/orders] before validation.  Besides the schema's
    keys it may carry any other key; [couponCode] stands for those. *)
Record RequestBody := mkRequestBody
  { body_shippingAddress : option Address;
    body_billingAddress : option Address;
    body_paymentMethod : option string;
    body_couponCode : option string }.

(** [createOrderSchema.parse({...req.body, userId})]: [shippingAddress] is
    required, [paymentMethod] defaults to ["card"], and a [z.object] drops
    the keys it does not declare. *)
Definition createOrderSchema_parse (body : RequestBody) (user : string)
    : result CreateOrder :=
  match body_shippingAddress body with
  | None => Throw "Validation error"
  | Some a =>
    Ok (mkCreateOrder user a (body_billingAddress body)
          (default "card" (body_paymentMethod body)))
  end.

(** One row of the cart query: the cart line with the joined product
    columns [p.price], [p.stock_quantity], [p.name]. *)
Record CartRow := mkCartRow
  { line : CartItem.t; price : Qc; stock_quantity : Z; name : string }.

(** [SELECT c.*, p.price, p.stock_quantity, p.name
     FROM cart c JOIN products p ON c.product_id = p.id
     WHERE c.user_id = $1].  The query has no ORDER BY; the rows are taken
    in the order of the cart lines in the store. *)
Definition join_product (db : Db.t) (user : string) (c : CartItem.t)
    : option CartRow :=
  if String.eqb (CartItem.user_id c) user then
    (λ p, mkCartRow c (Product.price p) (Product.stock_quantity p) (Product.name p))
      <$> Db.products db !! CartItem.product_id c
  else None.

Definition select_cart (db : Db.t) (user : string) : list CartRow :=
  omap (join_product db user) (Db.cart db).

(** An element of the local array [orderItems]. *)
Record item := mkItem { productId : string; quantity : Z; item_price : Qc }.

Definition item_of_row (r : CartRow) : item :=
  mkItem (CartItem.product_id (line r)) (CartItem.quantity (line r)) (price r).

(** The pricing loop: [totalAmount] and [orderItems] are the loop's
    accumulators; the first line short of stock throws. *)
Fixpoint price_lines (rows : list CartRow) (totalAmount : Qc)
    (orderItems : list item) : result (Qc * list item) :=
  match rows with
  | [] => Ok (totalAmount, orderItems)
  | r :: rest =>
    if stock_quantity r <? CartItem.quantity (line r) then
      Throw (String.append "Insufficient stock for " (name r))
    else
      let itemTotal := (price r * Qc_of_Z (CartItem.quantity (line r)))%Qc in
      price_lines rest (totalAmount + itemTotal)%Qc (orderItems ++ [item_of_row r])
  end.

(** [INSERT INTO orders (...) VALUES (...) RETURNING *]; the key and the
    timestamp come from the database.  The statement fails with "numeric
    field overflow" when the total does not fit [total_amount]; a total
    that fits is a sum of DECIMAL(10,2) prices times integers, has at most
    two decimals, and is stored as it is. *)
Definition new_order (oid : string) (now : Z) (data : CreateOrder)
    (totalAmount : Qc) : Order.t :=
  Order.mk oid (userId data) totalAmount "pending"
    (shippingAddress data)
    (default (shippingAddress data) (billingAddress data))
    "pending" (paymentMethod data) now.

Definition fits (totalAmount : Qc) : bool :=
  bool_decide (is_Some (Pg.decimal_10_2 totalAmount)).

Definition insert_order (o : Order.t) (db : Db.t) : Db.t :=
  set_orders (λ l, l ++ [o]) db.

(** [INSERT INTO order_items (order_id, product_id, quantity, price)] *)
Definition insert_order_item (oid : string) (it : item) (db : Db.t) : Db.t :=
  set_order_items
    (λ l, l ++ [OrderItem.mk oid (productId it) (quantity it) (item_price it)]) db.

(** [UPDATE products SET stock_quantity = stock_quantity - $1 WHERE id = $2] *)
Definition take_stock (qty : Z) (p : Product.t) : Product.t :=
  Product.mk (Product.id p) (Product.name p) (Product.price p)
    (Product.stock_quantity p - qty) (Product.is_active p).

Definition update_stock (qty : Z) (pid : string) (db : Db.t) : Db.t :=
  set_products (alter (take_stock qty) pid) db.

(** [DELETE FROM cart WHERE user_id = $1] *)
Definition delete_cart (user : string) (db : Db.t) : Db.t :=
  set_cart (filter (λ c, CartItem.user_id c ≠ user)) db.

(** The second loop: one [order_items] row and one stock update per item. *)
Fixpoint write_items (oid : string) (items : list item) (db : Db.t) : Db.t :=
  match items with
  | [] => db
  | it :: rest =>
    write_items oid rest
      (update_stock (quantity it) (productId it) (insert_order_item oid it db))
  end.

(** [createOrderFromCart(data)], run alone from start to end.  [oid] and
    [now] are the key and the [updated_at] the database gives the new
    order. *)
Definition createOrderFromCart (oid : string) (now : Z) (data : CreateOrder)
    (db : Db.t) : Db.t * result Order.t :=
  let rows := select_cart db (userId data) in
  match rows with
  | [] => (db, Throw "Cart is empty")
  | _ =>
    match price_lines rows 0%Qc [] with
    | Throw m => (db, Throw m)
    | Ok (totalAmount, orderItems) =>
      if negb (fits totalAmount) then (db, Throw "numeric field overflow")
      else
        let order := new_order oid now data totalAmount in
        let db1 := insert_order order db in
        let db2 := write_items (Order.id order) orderItems db1 in
        let db3 := delete_cart (userId data) db2 in
        (db3, Ok order)
    end
  end.

(** The handler of [POST /api/orders]: validate, then create. *)
Definition postOrder (oid : string) (now : Z) (body : RequestBody)
    (user : string) (db : Db.t) : Db.t * result Order.t :=
  match createOrderSchema_parse body user with
  | Throw m => (db, Throw m)
  | Ok data => createOrderFromCart oid now data db
  end.

(** *** The same function statement by statement

    Between two [await]s another request may run.  [pc] is the point a
    call has reached together with its local variables; [step] executes
    the next statement. *)
Inductive pc :=
| AtSelectCart
| AtInsertOrder (totalAmount : Qc) (orderItems : list item)
| AtInsertItem (order : Order.t) (it : item) (todo : list item)
| AtUpdateStock (order : Order.t) (it : item) (todo : list item)
| AtDeleteCart (order : Order.t)
| Returned (r : result Order.t).

Definition next_item (order : Order.t) (todo : list item) : pc :=
  match todo with
  | [] => AtDeleteCart order
  | it :: rest => AtInsertItem order it rest
  end.

Definition step (oid : string) (now : Z) (data : CreateOrder)
    (p : pc) (db : Db.t) : pc * Db.t :=
  match p with
  | AtSelectCart =>
    let rows := select_cart db (userId data) in
    match rows with
    | [] => (Returned (Throw "Cart is empty"), db)
    | _ =>
      match price_lines rows 0%Qc [] with
      | Throw m => (Returned (Throw m), db)
      | Ok (totalAmount, orderItems) => (AtInsertOrder totalAmount orderItems, db)
      end
    end
  | AtInsertOrder totalAmount orderItems =>
    if negb (fits totalAmount) then (Returned (Throw "numeric field overflow"), db)
    else
      let order := new_order oid now data totalAmount in
      (next_item order orderItems, insert_order order db)
  | AtInsertItem order it todo =>
    (AtUpdateStock order it todo, insert_order_item (Order.id order) it db)
  | AtUpdateStock order it todo =>
    (next_item order todo, update_stock (quantity it) (productId it) db)
  | AtDeleteCart order =>
    (Returned (Ok order), delete_cart (userId data) db)
  | Returned r => (Returned r, db)
  end.

Fixpoint run (n : nat) (oid : string) (now : Z) (data : CreateOrder)
    (p : pc) (db : Db.t) : pc * Db.t :=
  match n with
  | O => (p, db)
  | S n' => let '(p', db') := step oid now data p db in run n' oid now data p' db'
  end.

(** Two calls in flight.  A schedule says which call executes its next
    statement: [false] the first call, [true] the second. *)
Record call := mkCall { c_oid : string; c_now : Z; c_data : CreateOrder }.

Fixpoint interleave (sched : list bool) (a b : call) (pa pb : pc) (db : Db.t)
    : pc * pc * Db.t :=
  match sched with
  | [] => (pa, pb, db)
  | false :: sched' =>
    let '(pa', db') := step (c_oid a) (c_now a) (c_data a) pa db in
    interleave sched' a b pa' pb db'
  | true :: sched' =>
    let '(pb', db') := step (c_oid b) (c_now b) (c_data b) pb db in
    interleave sched' a b pa pb' db'
  end.

(** [getOrderById(orderId, userId?)]: the filter on the owner is added only
    when [userId] is truthy (given and not the empty string). *)
Definition owner_filter (userId : option string) : option string :=
  match userId with
  | Some u => if String.eqb u "" then None else Some u
  | None => None
  end.

Definition getOrderById (orderId : string) (userId : option string)
    (db : Db.t) : option Order.t :=
  head (filter (λ o, String.eqb (Order.id o) orderId
                     && match owner_filter userId with
                        | Some u => String.eqb (Order.user_id o) u
                        | None => true
                        end = true)
               (Db.orders db)).

(** [updateOrderStatus(orderId, status)]:
    [UPDATE orders SET status = $1, updated_at = CURRENT_TIMESTAMP
     WHERE id = $2 RETURNING *], [rows[0]]. *)
Definition validStatuses : list string :=
  ["pending"; "processing"; "shipped"; "delivered"; "cancelled"].

Definition set_status (status : string) (now : Z) (o : Order.t) : Order.t :=
  Order.mk (Order.id o) (Order.user_id o) (Order.total_amount o) status
    (Order.shipping_address o) (Order.billing_address o)
    (Order.payment_status o) (Order.payment_method o) now.

Definition updateOrderStatus (now : Z) (orderId status : string) (db : Db.t)
    : Db.t * result (option Order.t) :=
  if negb (existsb (String.eqb status) validStatuses) then
    (db, Throw "Invalid order status")
  else
    let db' :=
      set_orders
        (map (λ o, if String.eqb (Order.id o) orderId
                   then set_status status now o else o)) db in
    (db', Ok (head (filter (λ o, String.eqb (Order.id o) orderId = true)
                           (Db.orders db')))).

End orderService.

(** ** cart.service.ts *)

Module cartService.

(** [z.infer<typeof addToCartSchema>] and [z.infer<typeof updateCartItemSchema>] *)
Record AddToCart := mkAddToCart { productId : string; quantity : Z }.

Record UpdateCartItem := mkUpdateCartItem { new_quantity : Z }.

(** [WHERE user_id = $1 AND product_id = $2] *)
Definition same_line (user pid : string) (c : CartItem.t) : bool :=
  String.eqb (CartItem.user_id c) user && String.eqb (CartItem.product_id c) pid.

(** [WHERE id = $1 AND user_id = $2] *)
Definition own_line (id user : string) (c : CartItem.t) : bool :=
  String.eqb (CartItem.id c) id && String.eqb (CartItem.user_id c) user.

Definition set_quantity (q : Z) (c : CartItem.t) : CartItem.t :=
  CartItem.mk (CartItem.id c) (CartItem.user_id c) (CartItem.product_id c) q.

(** [addItem(userId, data)]; [new_id] is the key the database gives an
    inserted line. *)
Definition addItem (new_id : string) (user : string) (data : AddToCart)
    (db : Db.t) : Db.t * result (option CartItem.t) :=
  match Db.products db !! productId data with
  | None => (db, Throw "Product not found")
  | Some product =>
    if negb (Product.is_active product) then
      (db, Throw "Product is not available")
    else if Product.stock_quantity product <? quantity data then
      (db, Throw "Insufficient stock")
    else
      match filter (λ c, same_line user (productId data) c = true) (Db.cart db) with
      | existing :: _ =>
        let newQuantity := CartItem.quantity existing + quantity data in
        if Product.stock_quantity product <? newQuantity then
          (db, Throw "Insufficient stock")
        else
          let db' :=
            set_cart
              (map (λ c, if same_line user (productId data) c
                         then set_quantity newQuantity c else c)) db in
          (db', Ok (head (filter (λ c, same_line user (productId data) c = true)
                                 (Db.cart db'))))
      | [] =>
        let row := CartItem.mk new_id user (productId data) (quantity data) in
        (set_cart (λ l, l ++ [row]) db, Ok (Some row))
      end
  end.

(** [updateItem(userId, cartItemId, data)]: the line is read joined with
    its product, then its quantity is overwritten. *)
Definition updateItem (user cartItemId : string) (data : UpdateCartItem)
    (db : Db.t) : Db.t * result (option CartItem.t) :=
  match omap (λ c, if own_line cartItemId user c
                   then Db.products db !! CartItem.product_id c else None)
             (Db.cart db) with
  | [] => (db, Throw "Cart item not found")
  | product :: _ =>
    if negb (Product.is_active product) then
      (db, Throw "Product is not available")
    else if Product.stock_quantity product <? new_quantity data then
      (db, Throw "Insufficient stock")
    else
      let db' :=
        set_cart
          (map (λ c, if own_line cartItemId user c
                     then set_quantity (new_quantity data) c else c)) db in
      (db', Ok (head (filter (λ c, own_line cartItemId user c = true)
                             (Db.cart db'))))
  end.

(** [removeItem(userId, cartItemId)]:
    [DELETE FROM cart WHERE id = $1 AND user_id = $2 RETURNING *] *)
Definition removeItem (user cartItemId : string) (db : Db.t)
    : Db.t * result string :=
  match filter (λ c, own_line cartItemId user c = true) (Db.cart db) with
  | [] => (db, Throw "Cart item not found")
  | _ :: _ =>
    (set_cart (filter (λ c, own_line cartItemId user c = false)) db,
     Ok "Item removed from cart")
  end.

(** [clearCart(userId)]: [DELETE FROM cart WHERE user_id = $1] *)
Definition clearCart (user : string) (db : Db.t) : Db.t * string :=
  (orderService.delete_cart user db, "Cart cleared").

(** [getCartTotal(userId)]: [SELECT SUM(c.quantity * p.price)] over the
    join of the cart query; the sum of no rows is NULL, read as ["0"]. *)
Definition getCartTotal (user : string) (db : Db.t) : Qc :=
  match orderService.select_cart db user with
  | [] => 0%Qc
  | rows =>
    foldr (λ r acc, (Qc_of_Z (CartItem.quantity (orderService.line r))
                     * orderService.price r + acc)%Qc) 0%Qc rows
  end.

End cartService.

(** ** The payment processor

    The part of the Stripe client the service calls.  The processor keeps
    its own list of payment intents; the status of an intent changes on the
    processor's side, outside this program. *)

Module Stripe.

Record PaymentIntent := mkIntent
  { id : string; amount : Z; currency : string;
    payment_method_types : list string; metadata_orderId : string;
    status : string; client_secret : string }.

Definition t := list PaymentIntent.

(** [stripe.paymentIntents.create({...})].  [answer] is what the processor
    decides: the id and client secret of the new intent, or a rejection. *)
Definition create (answer : result (string * string)) (amount : Z)
    (currency : string) (method : string) (orderId : string) (st : t)
    : t * result PaymentIntent :=
  match answer with
  | Throw m => (st, Throw m)
  | Ok (pi, secret) =>
    let intent :=
      mkIntent pi amount currency [method] orderId "requires_payment_method" secret in
    (st ++ [intent], Ok intent)
  end.

(** [stripe.paymentIntents.retrieve(id)] *)
Definition retrieve (pi : string) (st : t) : result PaymentIntent :=
  match find (λ i, String.eqb (id i) pi) st with
  | Some i => Ok i
  | None => Throw (String.append "No such payment_intent: " pi)
  end.

End Stripe.

(** ** payment.service.ts *)

Module paymentService.

(** [z.infer<typeof createPaymentIntentSchema>] *)
Record CreatePaymentIntent := mkCreatePaymentIntent
  { orderId : string; amount : Qc; currency : string; paymentMethod : string }.

(** [SELECT * FROM orders WHERE id = $1] *)
Definition select_order (oid : string) (db : Db.t) : list Order.t :=
  filter (λ o, Order.id o = oid) (Db.orders db).

(** [INSERT INTO payments (order_id, amount, currency, payment_method,
     payment_intent_id, status) VALUES (...) RETURNING *]; [transaction_id]
    is left NULL, key and timestamp come from the database.  The row holds
    the amount as the DECIMAL(10,2) column rounds it; the statement fails
    when the amount does not fit the column or the currency is longer than
    VARCHAR(3) allows. *)
Definition new_payment (pay_id : string) (now : Z) (data : CreatePaymentIntent)
    (stored : Qc) (intent : Stripe.PaymentIntent) : Payment.t :=
  Payment.mk pay_id (orderId data) stored (currency data)
    (paymentMethod data) (Some (Stripe.id intent)) "pending" None now.

Definition insert_payment (pay_id : string) (now : Z) (data : CreatePaymentIntent)
    (intent : Stripe.PaymentIntent) (db : Db.t) : result (Db.t * Payment.t) :=
  match Pg.decimal_10_2 (amount data) with
  | None => Throw "numeric field overflow"
  | Some stored =>
    if negb (Pg.varchar 3 (currency data)) then
      Throw "value too long for type character varying(3)"
    else
      let payment := new_payment pay_id now data stored intent in
      Ok (set_payments (λ l, l ++ [payment]) db, payment)
  end.

(** [Math.round(amount * 100)]: the product is a double. *)
Definition cents (amount : Qc) : Z :=
  Js.round (Js.mul (Js.double amount) (Q2Qc 100)).

(** [createPaymentIntent(data)].  The intent is created at the processor
    before the payment row is inserted: when the INSERT fails the intent
    exists and no row refers to it. *)
Definition createPaymentIntent (pay_id : string) (now : Z)
    (answer : result (string * string)) (data : CreatePaymentIntent)
    (w : Stripe.t * Db.t)
    : (Stripe.t * Db.t) * result (Payment.t * string) :=
  let '(st, db) := w in
  match select_order (orderId data) db with
  | [] => (w, Throw "Order not found")
  | order :: _ =>
    if String.eqb (Order.payment_status order) "paid" then
      (w, Throw "Order is already paid")
    else
      match Stripe.create answer
              (cents (amount data))
              (Js.toLowerCase (currency data))
              (paymentMethod data) (orderId data) st with
      | (st', Throw m) => ((st', db), Throw m)
      | (st', Ok paymentIntent) =>
        match insert_payment pay_id now data paymentIntent db with
        | Throw m => ((st', db), Throw m)
        | Ok (db', payment) =>
          ((st', db'), Ok (payment, Stripe.client_secret paymentIntent))
        end
      end
  end.

(** [UPDATE payments SET status = $1, transaction_id = $2,
     updated_at = CURRENT_TIMESTAMP WHERE payment_intent_id = $3 RETURNING *] *)
Definition has_intent (pi : string) (p : Payment.t) : bool :=
  bool_decide (Payment.payment_intent_id p = Some pi).

Definition settle (status : string) (txn : string) (now : Z) (p : Payment.t)
    : Payment.t :=
  Payment.mk (Payment.id p) (Payment.order_id p) (Payment.amount p)
    (Payment.currency p) (Payment.payment_method p)
    (Payment.payment_intent_id p) status (Some txn) now.

Definition update_payments (status txn : string) (now : Z) (pi : string)
    (db : Db.t) : Db.t * list Payment.t :=
  let db' :=
    set_payments
      (map (λ p, if has_intent pi p then settle status txn now p else p)) db in
  (db', filter (λ p, has_intent pi p = true) (Db.payments db')).

(** [UPDATE orders SET payment_status = ..., updated_at = CURRENT_TIMESTAMP
     WHERE id = $1] *)
Definition mark_order (payment_status : string) (now : Z) (o : Order.t) : Order.t :=
  Order.mk (Order.id o) (Order.user_id o) (Order.total_amount o)
    (Order.status o) (Order.shipping_address o) (Order.billing_address o)
    payment_status (Order.payment_method o) now.

Definition update_order_payment_status (payment_status : string) (now : Z)
    (oid : string) (db : Db.t) : Db.t :=
  set_orders
    (map (λ o, if bool_decide (Order.id o = oid)
               then mark_order payment_status now o else o)) db.

Definition confirmPayment (now : Z) (paymentIntentId : string)
    (w : Stripe.t * Db.t) : (Stripe.t * Db.t) * result Payment.t :=
  let '(st, db) := w in
  match Stripe.retrieve paymentIntentId st with
  | Throw m => (w, Throw m)
  | Ok paymentIntent =>
    let succeeded := String.eqb (Stripe.status paymentIntent) "succeeded" in
    let '(db1, rows) :=
      update_payments (if succeeded then "succeeded" else "failed")
        (Stripe.id paymentIntent) now paymentIntentId db in
    match rows with
    | [] => ((st, db1), Throw "Payment record not found")
    | payment :: _ =>
      let db2 :=
        if succeeded then
          update_order_payment_status "paid" now (Payment.order_id payment) db1
        else if String.eqb (Stripe.status paymentIntent) "payment_failed" then
          update_order_payment_status "failed" now (Payment.order_id payment) db1
        else db1 in
      ((st, db2), Ok payment)
    end
  end.

(** [getPaymentById(paymentId)] *)
Definition getPaymentById (paymentId : string) (db : Db.t) : option Payment.t :=
  head (filter (λ p, String.eqb (Payment.id p) paymentId = true) (Db.payments db)).

(** [UPDATE payments SET status = 'refunded', updated_at = CURRENT_TIMESTAMP
     WHERE id = $1] *)
Definition mark_refunded (now : Z) (p : Payment.t) : Payment.t :=
  Payment.mk (Payment.id p) (Payment.order_id p) (Payment.amount p)
    (Payment.currency p) (Payment.payment_method p)
    (Payment.payment_intent_id p) "refunded" (Payment.transaction_id p) now.

(** [refundPayment(paymentId)].  [answer] is what the processor replies to
    [stripe.refunds.create]: the id of the refund, or a rejection.  A
    refund leaves the status of the intent at the processor as it is. *)
Definition refundPayment (now : Z) (answer : result string) (paymentId : string)
    (w : Stripe.t * Db.t) : (Stripe.t * Db.t) * result (string * string) :=
  let '(st, db) := w in
  match filter (λ p, String.eqb (Payment.id p) paymentId = true) (Db.payments db) with
  | [] => (w, Throw "Payment not found")
  | payment :: _ =>
    if negb (match Payment.payment_intent_id payment with
             | Some pi => negb (String.eqb pi "")
             | None => false
             end) then
      (w, Throw "Payment intent ID not found")
    else if negb (String.eqb (Payment.status payment) "succeeded") then
      (w, Throw "Only succeeded payments can be refunded")
    else
      match answer with
      | Throw m => (w, Throw m)
      | Ok refundId =>
        let db1 :=
          set_payments
            (map (λ p, if String.eqb (Payment.id p) paymentId
                       then mark_refunded now p else p)) db in
        let db2 :=
          update_order_payment_status "refunded" now (Payment.order_id payment) db1 in
        ((st, db2), Ok ("Payment refunded successfully", refundId))
      end
  end.

End paymentService.

(** * Properties *)

(** ** Numbers *)

Lemma Js_ltb_lt (x y : Qc) : Js.ltb x y = true ↔ (x < y)%Qc.
Proof.
  unfold Js.ltb. rewrite negb_true_iff, <- not_true_iff_false, Qle_bool_iff.
  split; [apply Qnot_le_lt | apply Qlt_not_le].
Qed.

Lemma Js_ltb_ge (x y : Qc) : Js.ltb x y = false ↔ (y ≤ x)%Qc.
Proof. unfold Js.ltb. rewrite negb_false_iff. apply Qle_bool_iff. Qed.

(** *** The accuracy of double arithmetic

    Rounding to the nearest double changes a number by at most one part in
    [2^53]; the error of a computation is followed through its operations
    as a relative error. *)

Section Doubles.
Local Open Scope Q_scope.

Definition ulp53 : Q := 1 # 2 ^ 53.

(** [a] is [b] up to the relative error [c]. *)
Definition rel_err (c a b : Q) : Prop := Qabs (a - b) <= c * Qabs b.

#[global] Instance rel_err_proper : Proper (Qeq ==> Qeq ==> Qeq ==> iff) rel_err.
Proof. intros c c' Hc a a' Ha b b' Hb. unfold rel_err. by rewrite Hc, Ha, Hb. Qed.

Lemma rint_near (x : Q) :
  inject_Z (Js.rint x) - (1 # 2) <= x ∧ x <= inject_Z (Js.rint x) + (1 # 2).
Proof.
  unfold Js.rint.
  pose proof (Qfloor_le x) as Hlo. pose proof (Qlt_floor x) as Hhi.
  rewrite inject_Z_plus in Hhi. change (inject_Z 1) with 1 in Hhi.
  destruct (Qcompare_spec (x - inject_Z (Qfloor x)) (1 # 2)) as [E|E|E].
  - destruct (Z.even (Qfloor x)); [|rewrite inject_Z_plus; change (inject_Z 1) with 1];
      split; lra.
  - split; lra.
  - rewrite inject_Z_plus. change (inject_Z 1) with 1. split; lra.
Qed.

Lemma pow2_pos (e : Z) : 0 < 2 ^ e.
Proof. apply Qpower_0_lt. reflexivity. Qed.

(** A positive number is at least the power of two of its binade. *)
Lemma binade_le (x : Q) : 0 < x → 2 ^ Js.binade x <= x.
Proof.
  intros Hx. unfold Js.binade.
  destruct (Qle_bool _ x) eqn:E; [by apply Qle_bool_iff|]. clear E.
  destruct x as [n d]. cbn [Qnum Qden].
  assert (Hn : (0 < n)%Z) by (unfold Qlt in Hx; cbn in Hx; lia).
  pose proof (Z.log2_spec n Hn) as [Ha _].
  pose proof (Z.log2_spec (Zpos d) eq_refl) as [_ Hb].
  pose proof (Z.log2_nonneg n) as Ha0.
  pose proof (Z.log2_nonneg (Zpos d)) as Hb0.
  set (a := Z.log2 n) in *. set (b := Z.log2 (Zpos d)) in *.
  replace (a - b - 1)%Z with (a - Z.succ b)%Z by lia.
  rewrite Qpower_minus by discriminate.
  rewrite <- !(Zpower_Qpower 2) by lia.
  apply Qle_shift_div_r.
  - change 0 with (inject_Z 0). rewrite <- Zlt_Qlt. lia.
  - unfold Qle, Qmult, inject_Z. cbn [Qnum Qden]. nia.
Qed.

Lemma nearest_accurate (x : Q) :
  0 < x → Qabs (Js.nearest x - x) <= x * ulp53.
Proof.
  intros Hx. unfold Js.nearest.
  set (e := (Js.binade x - 52)%Z).
  pose proof (pow2_pos e) as HP.
  pose proof (rint_near (x / 2 ^ e)) as [Hlo Hhi].
  assert (Hk : 2 ^ e * 2 ^ 52 <= x).
  { rewrite <- Qpower_plus by discriminate.
    replace (e + 52)%Z with (Js.binade x) by (unfold e; lia). by apply binade_le. }
  assert (Hy : x / 2 ^ e * 2 ^ e == x) by (field; lra).
  set (y := x / 2 ^ e) in *. set (m := inject_Z (Js.rint y)) in *.
  set (P := 2 ^ e) in *.
  assert (H1 : (m - (1 # 2)) * P <= y * P) by (apply Qmult_le_compat_r; lra).
  assert (H2 : y * P <= (m + (1 # 2)) * P) by (apply Qmult_le_compat_r; lra).
  change (2 ^ 52) with (4503599627370496 # 1) in Hk.
  change ulp53 with (1 # 9007199254740992).
  apply Qabs_Qle_condition. split; lra.
Qed.

Lemma b64_near (x : Q) : rel_err ulp53 (Js.b64 x) x.
Proof.
  unfold rel_err, Js.b64.
  destruct (Qcompare_spec x 0) as [E|E|E].
  - rewrite E. cbn. discriminate.
  - pose proof (nearest_accurate (- x)) as H.
    assert (Hx : 0 < - x) by lra. specialize (H Hx).
    rewrite (Qabs_neg x) by lra.
    assert (Heq : - Js.nearest (- x) - x == - (Js.nearest (- x) - - x)) by ring.
    rewrite Heq, Qabs_opp. lra.
  - pose proof (nearest_accurate x E) as H.
    rewrite (Qabs_pos x) by lra. lra.
Qed.

Lemma rel_err_le (c c' a b : Q) : rel_err c a b → c <= c' → rel_err c' a b.
Proof.
  unfold rel_err. intros H Hc. pose proof (Qabs_nonneg b).
  assert (c * Qabs b <= c' * Qabs b) by (apply Qmult_le_compat_r; lra). lra.
Qed.

Lemma rel_err_abs (c a b : Q) : rel_err c a b → Qabs a <= (1 + c) * Qabs b.
Proof.
  unfold rel_err. intros H.
  assert (Heq : a == (a - b) + b) by ring.
  rewrite Heq at 1. pose proof (Qabs_triangle (a - b) b). lra.
Qed.

Lemma rel_err_mul (c1 c2 a b a' b' : Q) :
  0 <= c1 → rel_err c1 a b → rel_err c2 a' b' →
  rel_err (c1 + c2 + c1 * c2) (a * a') (b * b').
Proof.
  intros Hc1 H1 H2. pose proof (rel_err_abs _ _ _ H2) as H2'.
  unfold rel_err in *.
  assert (Heq : a * a' - b * b' == (a - b) * a' + b * (a' - b')) by ring.
  rewrite Heq. pose proof (Qabs_triangle ((a - b) * a') (b * (a' - b'))) as Ht.
  rewrite !Qabs_Qmult in *.
  pose proof (Qabs_nonneg b). pose proof (Qabs_nonneg b').
  pose proof (Qabs_nonneg a'). pose proof (Qabs_nonneg (a - b)).
  pose proof (Qabs_nonneg (a' - b')).
  set (A := Qabs (a - b)) in *. set (B := Qabs b) in *.
  set (A' := Qabs (a' - b')) in *. set (B' := Qabs b') in *.
  set (C := Qabs a') in *.
  assert (A * C <= (c1 * B) * ((1 + c2) * B')).
  { apply Qle_trans with (c1 * B * C).
    - apply Qmult_le_compat_r; lra.
    - rewrite !(Qmult_comm (c1 * B)). apply Qmult_le_compat_r; [lra|].
      apply Qmult_le_0_compat; lra. }
  assert (B * A' <= B * (c2 * B')).
  { rewrite !(Qmult_comm B). apply Qmult_le_compat_r; lra. }
  assert (Hr : (c1 + c2 + c1 * c2) * (B * B')
               == c1 * B * ((1 + c2) * B') + B * (c2 * B')) by ring.
  rewrite Hr. lra.
Qed.

Lemma rel_err_div (c a b k : Q) : rel_err c a b → rel_err c (a / k) (b / k).
Proof.
  unfold rel_err, Qdiv. intros H.
  assert (Heq : a * / k - b * / k == (a - b) * / k) by ring.
  rewrite Heq, !Qabs_Qmult. pose proof (Qabs_nonneg (/ k)).
  rewrite Qmult_assoc. apply Qmult_le_compat_r; lra.
Qed.

Lemma rel_err_round (c a b : Q) :
  0 <= c → rel_err c a b → rel_err (c + ulp53 * (1 + c)) (Js.b64 a) b.
Proof.
  intros Hc H. pose proof (b64_near a) as Ha.
  pose proof (rel_err_abs _ _ _ H) as Habs. unfold rel_err in *.
  assert (Heq : Js.b64 a - b == (Js.b64 a - a) + (a - b)) by ring.
  rewrite Heq. pose proof (Qabs_triangle (Js.b64 a - a) (a - b)) as Ht.
  pose proof (Qabs_nonneg b).
  assert (ulp53 * Qabs a <= ulp53 * ((1 + c) * Qabs b)).
  { rewrite !(Qmult_comm ulp53). apply Qmult_le_compat_r; [lra|]. discriminate. }
  assert (Hr : (c + ulp53 * (1 + c)) * Qabs b
               == ulp53 * ((1 + c) * Qabs b) + c * Qabs b) by ring.
  rewrite Hr. lra.
Qed.


(** The operations on [Qc] seen on fractions. *)
Lemma double_this (x : Qc) : Js.double x == Js.b64 x.
Proof. unfold Js.double. cbn. apply Qred_correct. Qed.

Lemma Qcmult_this (x y : Qc) : (x * y)%Qc == x * y.
Proof. cbn. apply Qred_correct. Qed.

Lemma Qcinv_this (x : Qc) : (/ x)%Qc == / x.
Proof. cbn. apply Qred_correct. Qed.

Lemma Qcdiv_this (x y : Qc) : (x / y)%Qc == x / y.
Proof. unfold Qcdiv. by rewrite Qcmult_this, Qcinv_this. Qed.


Lemma double_near (x : Qc) : rel_err ulp53 (Js.double x) x.
Proof. rewrite double_this. apply b64_near. Qed.

Lemma mul_near (c1 c2 : Q) (x y : Qc) (a b : Q) :
  0 <= c1 → 0 <= c2 → rel_err c1 x a → rel_err c2 y b →
  rel_err (c1 + c2 + c1 * c2 + ulp53 * (1 + (c1 + c2 + c1 * c2)))
          (Js.mul x y) (a * b).
Proof.
  intros Hc1 Hc2 Hx Hy. unfold Js.mul. rewrite double_this.
  apply rel_err_round; [|rewrite Qcmult_this; by apply rel_err_mul].
  assert (0 <= c1 * c2) by (apply Qmult_le_0_compat; lra). lra.
Qed.

Lemma div_near (c : Q) (x k : Qc) (a : Q) :
  0 <= c → rel_err c x a →
  rel_err (c + ulp53 * (1 + c)) (Js.div x k) (a / k).
Proof.
  intros Hc Hx. unfold Js.div. rewrite double_this.
  apply rel_err_round; [done|]. rewrite Qcdiv_this. by apply rel_err_div.
Qed.

End Doubles.

(** ** Coupon evaluation *)

Section CouponRules.
Import couponService.

(** The evaluator as the specification words it: three rejection rules
    tried in order, the first failing one wins.  [limit_rule] is the test
    of the usage limit. *)
Inductive reason := Expired | LimitReached | BelowMinimum.

Definition outside_window (c : Coupon.t) (now : Z) : bool :=
  bool_decide (now < Coupon.valid_from c ∨ Coupon.valid_until c < now).

(** "usage_limit set and used_count ≥ usage_limit" *)
Definition limit_reached (c : Coupon.t) : bool :=
  match Coupon.usage_limit c with
  | Some l => bool_decide (l ≤ Coupon.used_count c)
  | None => false
  end.

(** The same with a limit of [0] read as no limit. *)
Definition nonzero_limit_reached (c : Coupon.t) : bool :=
  match Coupon.usage_limit c with
  | Some l => bool_decide (l ≠ 0 ∧ l ≤ Coupon.used_count c)
  | None => false
  end.

(** The order amount is below the minimum purchase, both as doubles. *)
Definition below_minimum (c : Coupon.t) (subtotal : Qc) : bool :=
  bool_decide (Js.double subtotal < Js.double (Coupon.min_purchase_amount c))%Qc.

Definition first_failing_rule (limit_rule : Coupon.t → bool) (c : Coupon.t)
    (now : Z) (subtotal : Qc) : option reason :=
  if outside_window c now then Some Expired
  else if limit_rule c then Some LimitReached
  else if below_minimum c subtotal then Some BelowMinimum
  else None.

Definition reason_message (c : Coupon.t) (r : reason) : message :=
  match r with
  | Expired => Text "Coupon has expired"
  | LimitReached => Text "Coupon usage limit reached"
  | BelowMinimum => MinimumPurchase (Coupon.min_purchase_amount c)
  end.

(** [x] equals [y] up to the rounding of double arithmetic: within one
    part in [2^50] of it. *)
Definition close_to (x y : Qc) : Prop :=
  (Qabs (x - y) <= (1 # 2 ^ 50) * Qabs y)%Q.

(** Numbers at which double arithmetic neither overflows nor underflows:
    zero, or between [10^-100] and [10^100] in absolute value. *)
Definition in_double_range (x : Qc) : Prop :=
  x = 0%Qc ∨ ((1 # 10 ^ 100) <= Qabs x ∧ Qabs x <= inject_Z (10 ^ 100))%Q.

(** A computed discount [d] capped at [cap] when a cap is set. *)
Definition capped (d : Qc) (cap : option Qc) : Qc :=
  match cap with
  | Some cap => if decide (Js.double cap < d)%Qc then cap else d
  | None => d
  end.


Lemma expired_test (c : Coupon.t) (now : Z) :
  (now <? Coupon.valid_from c) || (Coupon.valid_until c <? now)
  = outside_window c now.
Proof.
  unfold outside_window.
  destruct (Z.ltb_spec now (Coupon.valid_from c)),
           (Z.ltb_spec (Coupon.valid_until c) now); simpl; symmetry;
    first [ apply bool_decide_eq_true_2; lia | apply bool_decide_eq_false_2; lia ].
Qed.

Lemma limit_test (c : Coupon.t) :
  Js.truthy_int (Coupon.usage_limit c)
  && (default 0 (Coupon.usage_limit c) <=? Coupon.used_count c)
  = nonzero_limit_reached c.
Proof.
  unfold nonzero_limit_reached.
  destruct (Coupon.usage_limit c) as [l|] eqn:E; [|done]. simpl.
  destruct (Z.eqb_spec l 0), (Z.leb_spec l (Coupon.used_count c)); simpl; symmetry;
    first [ apply bool_decide_eq_true_2; lia | apply bool_decide_eq_false_2; lia ].
Qed.

Lemma minimum_test (c : Coupon.t) (subtotal : Qc) :
  Js.ltb (Js.double subtotal) (Js.double (Coupon.min_purchase_amount c))
  = below_minimum c subtotal.
Proof.
  unfold below_minimum.
  destruct (Js.ltb _ _) eqn:E; symmetry.
  - apply bool_decide_eq_true_2. by apply Js_ltb_lt.
  - apply bool_decide_eq_false_2. apply Js_ltb_ge in E. by apply Qcle_not_lt.
Qed.

Lemma cap_test (d : Qc) (cap : option Qc) :
  match cap with
  | Some cap => if Js.ltb (Js.double cap) d then cap else d
  | None => d
  end = capped d cap.
Proof.
  unfold capped. destruct cap as [cap|]; [|done].
  destruct (Js.ltb _ _) eqn:Hlt; case_decide; try done.
  - apply Js_ltb_lt in Hlt. done.
  - apply Js_ltb_ge in Hlt. by apply Qcle_not_lt in Hlt.
Qed.

(** The percentage as the program computes it,
    [(orderAmount * discount_value) / 100] in double arithmetic, is the
    exact percentage up to rounding. *)
Lemma percentage_close (subtotal value : Qc) :
  close_to (Js.div (Js.mul (Js.double subtotal) (Js.double value)) (Q2Qc 100))
           (subtotal * value / Q2Qc 100)%Qc.
Proof.
  unfold close_to.
  pose proof (double_near subtotal) as Hs. pose proof (double_near value) as Hv.
  assert (Hu : (0 <= ulp53)%Q) by discriminate.
  pose proof (mul_near _ _ _ _ _ _ Hu Hu Hs Hv) as Hm.
  match type of Hm with rel_err ?c _ _ =>
    assert (Hc : (0 <= c)%Q) by (vm_compute; discriminate);
    pose proof (div_near c _ (Q2Qc 100) _ Hc Hm) as Hd end.
  apply (rel_err_le _ (1 # 2 ^ 50)%Q) in Hd; [|vm_compute; discriminate].
  unfold rel_err in Hd.
  rewrite Qcdiv_this, Qcmult_this. exact Hd.
Qed.

(** C7, amended.  For a coupon found under the given code, [validateCoupon]
    rejects, with discount 0, by the first failing rule in the order
    validity window ("Coupon has expired"), usage limit ("Coupon usage
    limit reached", a limit of 0 counting as no limit), minimum purchase
    (the minimum-purchase message; the amounts are compared as doubles).
    When no rule fails it accepts without a message; for a percentage
    coupon, with the order amount and [discount_value] in the range where
    doubles neither overflow nor underflow, the discount is
    [subtotal × discount_value / 100] up to double rounding, replaced by
    [max_discount_amount] when that is not NULL and smaller; for any other
    coupon it is [discount_value]. *)
Theorem validateCoupon_rules (db : Db.t) (now : Z) (code : string)
    (subtotal : Qc) (c : Coupon.t) :
  getByCode db code = Some c →
  let v := validateCoupon db now code subtotal in
  match first_failing_rule nonzero_limit_reached c now subtotal with
  | Some r =>
    valid v = false ∧ discount v = 0%Qc ∧ msg v = Some (reason_message c r)
  | None =>
    valid v = true ∧ msg v = None
    ∧ (Coupon.discount_type c = "percentage" →
       in_double_range subtotal → in_double_range (Coupon.discount_value c) →
       ∃ d, close_to d (subtotal * Coupon.discount_value c / Q2Qc 100)%Qc
            ∧ discount v = capped d (Coupon.max_discount_amount c))
    ∧ (Coupon.discount_type c ≠ "percentage" →
       discount v = Coupon.discount_value c)
  end.
Proof.
  intros Hget v. subst v. unfold validateCoupon, first_failing_rule. rewrite Hget.
  rewrite expired_test, limit_test, minimum_test.
  destruct (outside_window c now); [done|].
  destruct (nonzero_limit_reached c); [done|].
  destruct (below_minimum c subtotal); [done|].
  cbn [valid discount msg accept]. split; [done|]. split; [done|]. split.
  - intros -> _ _. cbn [String.eqb Ascii.eqb Bool.eqb].
    eexists. split; [apply percentage_close|]. apply cap_test.
  - intros Hty. destruct (String.eqb_spec (Coupon.discount_type c) "percentage");
      [done|reflexivity].
Qed.

End CouponRules.

(** Closed equalities between rationals are decided on their fractions. *)
Ltac qc_eq := apply Qc_is_canon; vm_compute; reflexivity.

Module CouponExamples.
Import couponService.

(** "SAVE10": ten percent off orders of at least 15.00. *)
Definition save10 : Coupon.t :=
  Coupon.mk "c-1" "SAVE10" "percentage" (units 10) (units 15)
    None None 0 0 1000 true.

(** "FLAT50": 50.00 off, no minimum. *)
Definition flat50 : Coupon.t :=
  Coupon.mk "c-2" "FLAT50" "fixed" (units 50) (units 0)
    None None 0 0 1000 true.

(** "ONCE": redeemable once, and already redeemed once. *)
Definition once : Coupon.t :=
  Coupon.mk "c-3" "ONCE" "fixed" (units 5) (units 0)
    None (Some 1) 1 0 1000 true.

Definition db : Db.t := Db.mk ∅ [] [] [] [save10; flat50; once] [].

(** "ZERO": ten percent off, with a usage limit of 0. *)
Definition zero : Coupon.t :=
  Coupon.mk "c-4" "ZERO" "percentage" (units 10) (units 0)
    None (Some 0) 0 0 1000 true.

Definition db_zero : Db.t := Db.mk ∅ [] [] [] [zero] [].

End CouponExamples.

Section CouponFacts.
Import couponService CouponExamples.

(** C7, as claimed, fails: ZERO has a usage limit (0) that its use count
    (0) has reached, and is accepted. *)
Lemma usage_limit_zero_is_no_limit :
  ¬ (∀ (db : Db.t) (now : Z) (code : string) (subtotal : Qc) (c : Coupon.t)
       (r : reason),
       getByCode db code = Some c →
       first_failing_rule limit_reached c now subtotal = Some r →
       valid (validateCoupon db now code subtotal) = false
       ∧ msg (validateCoupon db now code subtotal) = Some (reason_message c r)).
Proof.
  intros H.
  destruct (H db_zero 500 "zero" (units 20) zero LimitReached eq_refl eq_refl)
    as [Hvalid _].
  vm_compute in Hvalid. discriminate Hvalid.
Qed.

Lemma validateCoupon_rules_witness :
  let v := validateCoupon db 500 "save10" (units 20) in
  valid v = true ∧ msg v = None
  ∧ (∃ d, close_to d (units 20 * units 10 / Q2Qc 100)%Qc
          ∧ discount v = capped d None).
Proof.
  destruct (validateCoupon_rules db 500 "save10" (units 20) save10 eq_refl)
    as (Hvalid & Hmsg & Hpct & _).
  split; [exact Hvalid|]. split; [exact Hmsg|].
  apply Hpct; [reflexivity| |]; right; split; vm_compute; discriminate.
Defined.

(** The specification's scenario: SAVE10 on a subtotal of 20.00 leaves 18.00. *)
Example save10_scenario :
  (units 20 - discount (validateCoupon db 500 "SAVE10" (units 20)))%Qc = units 18.
Proof. qc_eq. Qed.

(** Below its minimum purchase the same coupon is refused. *)
Example save10_below_minimum :
  validateCoupon db 500 "SAVE10" (units 10) = reject (MinimumPurchase (units 15)).
Proof. vm_compute. reflexivity. Qed.

(** The percentage is computed in doubles: all of 12.517 taken off leaves
    a discount a little above 12.517. *)
Example percentage_is_rounded :
  let all := Coupon.mk "c-5" "ALL" "percentage" (units 100) (units 0)
               None None 0 0 1000 true in
  discount (validateCoupon (Db.mk ∅ [] [] [] [all] []) 500 "all"
              (Q2Qc (12517 # 1000)))
  = Q2Qc (7046444566974563 # 562949953421312).
Proof. qc_eq. Qed.

(** A cap of 0.00 is a cap: the string ["0.00"] is truthy. *)
Example cap_of_zero_applies :
  let capped0 := Coupon.mk "c-6" "CAP0" "percentage" (units 10) (units 0)
                   (Some (units 0)) None 0 0 1000 true in
  discount (validateCoupon (Db.mk ∅ [] [] [] [capped0] []) 500 "cap0" (units 20))
  = units 0.
Proof. qc_eq. Qed.

(** C8, as claimed, fails: FLAT50 on a subtotal of 10.00 is valid and takes
    50.00 off. *)
Lemma fixed_discount_exceeds_subtotal :
  ¬ (∀ (db : Db.t) (now : Z) (code : string) (subtotal : Qc) (c : Coupon.t),
       getByCode db code = Some c →
       Coupon.discount_type c = "fixed" →
       valid (validateCoupon db now code subtotal) = true →
       (discount (validateCoupon db now code subtotal) ≤ subtotal)%Qc).
Proof.
  intros H.
  specialize (H db 500 "flat50" (units 10) flat50 eq_refl eq_refl eq_refl).
  revert H. apply Qclt_not_le. reflexivity.
Qed.

(** C8, amended.  A valid fixed-type coupon yields its [discount_value]
    verbatim, whatever the subtotal; the discount exceeds the subtotal
    exactly when [discount_value] does. *)
Theorem validateCoupon_fixed_verbatim (db : Db.t) (now : Z) (code : string)
    (subtotal : Qc) (c : Coupon.t) :
  getByCode db code = Some c →
  Coupon.discount_type c = "fixed" →
  valid (validateCoupon db now code subtotal) = true →
  discount (validateCoupon db now code subtotal) = Coupon.discount_value c.
Proof.
  intros Hget Hty. unfold validateCoupon. rewrite Hget, Hty.
  repeat (match goal with |- context [if ?b then _ else _] => destruct b end;
          try discriminate; try reflexivity).
Qed.

Lemma validateCoupon_fixed_verbatim_witness :
  discount (validateCoupon db 500 "flat50" (units 10)) = units 50.
Proof.
  exact (validateCoupon_fixed_verbatim db 500 "flat50" (units 10) flat50
           eq_refl eq_refl eq_refl).
Defined.




(** The limit is looked at by [validateCoupon] only: the exhausted coupon
    is refused there. *)
Example once_is_refused :
  validateCoupon db 500 "once" (units 20) = reject (Text "Coupon usage limit reached").
Proof. reflexivity. Qed.

End CouponFacts.

(** ** Order creation *)

Section OrderBuilder.
Import orderService.

(** A cart row that the stock on hand covers. *)
Definition covered (r : CartRow) : Prop :=
  CartItem.quantity (line r) ≤ stock_quantity r.

(** [Σ unit_price × quantity] over the cart rows. *)
Definition subtotal (rows : list CartRow) : Qc :=
  foldr (λ r acc, (price r * Qc_of_Z (CartItem.quantity (line r)) + acc)%Qc) 0%Qc rows.

(** The quantity of product [pid] that the items order in all. *)
Definition ordered (pid : string) (items : list item) : Z :=
  foldr (λ it acc, if String.eqb (productId it) pid then quantity it + acc else acc)
        0 items.

Definition order_item_of (oid : string) (it : item) : OrderItem.t :=
  OrderItem.mk oid (productId it) (quantity it) (item_price it).

(** *** The pricing loop *)

Lemma price_lines_covered (rows : list CartRow) (acc : Qc) (items : list item) :
  Forall covered rows →
  price_lines rows acc items
  = Ok ((acc + subtotal rows)%Qc, items ++ map item_of_row rows).
Proof.
  intros Hall. revert acc items.
  induction Hall as [|r rows Hr _ IH]; intros acc items; cbn [price_lines].
  - cbn. by rewrite Qcplus_0_r, app_nil_r.
  - unfold covered in Hr.
    destruct (Z.ltb_spec (stock_quantity r) (CartItem.quantity (line r))); [lia|].
    rewrite IH. cbn [subtotal foldr map]. rewrite <- app_assoc. cbn [app].
    f_equal. f_equal. fold (subtotal rows). ring.
Qed.

Lemma price_lines_short (pre post : list CartRow) (r : CartRow) (acc : Qc)
    (items : list item) :
  Forall covered pre →
  ¬ covered r →
  price_lines (pre ++ r :: post) acc items
  = Throw (String.append "Insufficient stock for " (name r)).
Proof.
  intros Hpre Hr. revert acc items.
  induction Hpre as [|r0 pre Hr0 _ IH]; intros acc items; cbn [price_lines app].
  - unfold covered in Hr.
    destruct (Z.ltb_spec (stock_quantity r) (CartItem.quantity (line r))); [done|lia].
  - unfold covered in Hr0.
    destruct (Z.ltb_spec (stock_quantity r0) (CartItem.quantity (line r0))); [lia|].
    apply IH.
Qed.

Lemma price_lines_ok_inv (rows : list CartRow) (acc total : Qc)
    (items items' : list item) :
  price_lines rows acc items = Ok (total, items') →
  Forall covered rows.
Proof.
  revert acc items. induction rows as [|r rows IH]; intros acc items; [constructor|].
  cbn [price_lines].
  destruct (Z.ltb_spec (stock_quantity r) (CartItem.quantity (line r))) as [|Hr]; [done|].
  intros Hrest%IH. by constructor.
Qed.

(** Splitting the rows at the first one short of stock. *)
Lemma first_short (rows : list CartRow) :
  Exists (λ r, ¬ covered r) rows →
  ∃ pre r post, rows = pre ++ r :: post ∧ Forall covered pre ∧ ¬ covered r.
Proof.
  induction rows as [|r0 rows IH]; intros Hex; [by apply Exists_nil in Hex|].
  destruct (decide (covered r0)) as [Hc|Hc].
  - apply Exists_cons in Hex as [?|Hex]; [done|].
    destruct (IH Hex) as (pre & r & post & -> & Hpre & Hr).
    exists (r0 :: pre), r, post. repeat split; [by constructor | done].
  - exists [], r0, rows. repeat split; [constructor | done].
Qed.

(** *** The writing loop *)

Lemma write_items_orders oid items db :
  Db.orders (write_items oid items db) = Db.orders db.
Proof. revert db. induction items as [|it items IH]; intros db; [done|]. cbn. by rewrite IH. Qed.

Lemma write_items_cart oid items db :
  Db.cart (write_items oid items db) = Db.cart db.
Proof. revert db. induction items as [|it items IH]; intros db; [done|]. cbn. by rewrite IH. Qed.

Lemma write_items_coupons oid items db :
  Db.coupons (write_items oid items db) = Db.coupons db.
Proof. revert db. induction items as [|it items IH]; intros db; [done|]. cbn. by rewrite IH. Qed.

Lemma write_items_payments oid items db :
  Db.payments (write_items oid items db) = Db.payments db.
Proof. revert db. induction items as [|it items IH]; intros db; [done|]. cbn. by rewrite IH. Qed.

Lemma write_items_order_items oid items db :
  Db.order_items (write_items oid items db)
  = Db.order_items db ++ map (order_item_of oid) items.
Proof.
  revert db. induction items as [|it items IH]; intros db; cbn.
  - by rewrite app_nil_r.
  - rewrite IH. cbn. by rewrite <- app_assoc.
Qed.

Lemma take_stock_0 (p : Product.t) : take_stock 0 p = p.
Proof. destruct p. unfold take_stock. cbn. f_equal. lia. Qed.

Lemma take_stock_add (a b : Z) (p : Product.t) :
  take_stock b (take_stock a p) = take_stock (a + b) p.
Proof. unfold take_stock. cbn. f_equal. lia. Qed.

Lemma write_items_products oid items db pid :
  Db.products (write_items oid items db) !! pid
  = take_stock (ordered pid items) <$> Db.products db !! pid.
Proof.
  revert db. induction items as [|it items IH]; intros db; cbn [write_items ordered foldr].
  - destruct (Db.products db !! pid) as [p|]; cbn; [by rewrite take_stock_0 | done].
  - rewrite IH. fold (ordered pid items). cbn [update_stock insert_order_item
      set_products set_order_items Db.products].
    destruct (String.eqb_spec (productId it) pid) as [->|Hne].
    + rewrite lookup_alter_eq.
      destruct (Db.products db !! pid) as [p|]; cbn; [|done].
      by rewrite take_stock_add.
    + by rewrite lookup_alter_ne.
Qed.

End OrderBuilder.

Section OrderCreation.
Import orderService.

(** What a row of the cart query is made of: a cart line of that user and
    the price, stock and name of its product as they are in the store when
    the query runs. *)
Lemma select_cart_row (db : Db.t) (user : string) (r : CartRow) :
  r ∈ select_cart db user ↔
  ∃ p, line r ∈ Db.cart db
       ∧ CartItem.user_id (line r) = user
       ∧ Db.products db !! CartItem.product_id (line r) = Some p
       ∧ price r = Product.price p
       ∧ stock_quantity r = Product.stock_quantity p
       ∧ name r = Product.name p.
Proof.
  unfold select_cart. rewrite list_elem_of_omap. unfold join_product. split.
  - intros (c & Hc & Hjoin).
    destruct (String.eqb_spec (CartItem.user_id c) user) as [Hu|]; [|done].
    destruct (Db.products db !! CartItem.product_id c) as [p|] eqn:Hp; [|done].
    injection Hjoin as <-. exists p. cbn. by repeat split.
  - intros (p & Hc & Hu & Hp & Hprice & Hstock & Hname).
    exists (line r). split; [done|].
    rewrite Hu, String.eqb_refl, Hp. cbn. destruct r. cbn in *. by subst.
Qed.

(** When every cart line of the user points at a stored product, the cart
    query returns one row per line, in the order of the lines. *)
Lemma select_cart_all_lines (db : Db.t) (user : string) :
  (∀ c, c ∈ Db.cart db → CartItem.user_id c = user →
        is_Some (Db.products db !! CartItem.product_id c)) →
  map line (select_cart db user)
  = filter (λ c, CartItem.user_id c = user) (Db.cart db).
Proof.
  unfold select_cart. induction (Db.cart db) as [|c l IH]; intros Hall; [done|].
  cbn [omap list_omap]. unfold join_product at 1.
  destruct (String.eqb_spec (CartItem.user_id c) user) as [Hu|Hu].
  - rewrite filter_cons_True by done.
    destruct (Hall c) as [p Hp]; [by left | done |].
    rewrite Hp. cbn. f_equal. apply IH. intros c' Hc'. apply Hall. by right.
  - rewrite filter_cons_False by done.
    apply IH. intros c' Hc'. apply Hall. by right.
Qed.

(** The outcome of a call that gets past the pricing loop and whose
    total fits the column. *)
Lemma createOrderFromCart_covered oid now data db :
  select_cart db (userId data) ≠ [] →
  Forall covered (select_cart db (userId data)) →
  fits (subtotal (select_cart db (userId data))) = true →
  createOrderFromCart oid now data db
  = let rows := select_cart db (userId data) in
    let order := new_order oid now data (subtotal rows) in
    (delete_cart (userId data)
       (write_items oid (map item_of_row rows) (insert_order order db)),
     Ok order).
Proof.
  intros Hne Hall Hfit. unfold createOrderFromCart.
  rewrite (price_lines_covered _ _ _ Hall).
  destruct (select_cart db (userId data)) as [|r rows] eqn:E; [done|].
  cbn zeta. rewrite Qcplus_0_l, Hfit. reflexivity.
Qed.

(** A total that does not fit [total_amount] aborts the call at the
    INSERT, the first statement that writes. *)
Lemma createOrderFromCart_overflow oid now data db :
  select_cart db (userId data) ≠ [] →
  Forall covered (select_cart db (userId data)) →
  fits (subtotal (select_cart db (userId data))) = false →
  createOrderFromCart oid now data db = (db, Throw "numeric field overflow").
Proof.
  intros Hne Hall Hfit. unfold createOrderFromCart.
  rewrite (price_lines_covered _ _ _ Hall).
  destruct (select_cart db (userId data)) as [|r rows] eqn:E; [done|].
  cbn zeta. rewrite Qcplus_0_l, Hfit. reflexivity.
Qed.

Lemma createOrderFromCart_ok_inv oid now data db db' order :
  createOrderFromCart oid now data db = (db', Ok order) →
  select_cart db (userId data) ≠ []
  ∧ Forall covered (select_cart db (userId data))
  ∧ fits (subtotal (select_cart db (userId data))) = true.
Proof.
  intros Hrun.
  destruct (decide (select_cart db (userId data) = [])) as [Hnil|Hne].
  { unfold createOrderFromCart in Hrun. by rewrite Hnil in Hrun. }
  assert (Hall : Forall covered (select_cart db (userId data))).
  { unfold createOrderFromCart in Hrun.
    destruct (select_cart db (userId data)) as [|r rows] eqn:E; [done|].
    destruct (price_lines (r :: rows) 0%Qc []) as [[total items]|m] eqn:Hp; [|done].
    by eapply price_lines_ok_inv. }
  split; [done|]. split; [done|].
  destruct (fits (subtotal (select_cart db (userId data)))) eqn:Hfit; [done|].
  by rewrite (createOrderFromCart_overflow _ _ _ _ Hne Hall Hfit) in Hrun.
Qed.

(** The quantity of product [pid] that the cart rows ask for in all. *)
Definition ordered_rows (pid : string) (rows : list CartRow) : Z :=
  foldr (λ r acc, if String.eqb (CartItem.product_id (line r)) pid
                  then CartItem.quantity (line r) + acc else acc)
        0 rows.

Lemma ordered_item_of_row (pid : string) (rows : list CartRow) :
  ordered pid (map item_of_row rows) = ordered_rows pid rows.
Proof.
  induction rows as [|r rows IH]; [done|].
  cbn [map ordered ordered_rows foldr item_of_row productId quantity].
  fold (ordered pid (map item_of_row rows)). fold (ordered_rows pid rows).
  by rewrite IH.
Qed.

(** Every cart line of the user whose product is stored is among the rows
    of the cart query. *)
Lemma select_cart_complete (db : Db.t) (user : string) (c : CartItem.t) :
  c ∈ Db.cart db → CartItem.user_id c = user →
  is_Some (Db.products db !! CartItem.product_id c) →
  c ∈ map line (select_cart db user).
Proof.
  intros Hc Hu [p Hp]. apply list_elem_of_fmap.
  exists (mkCartRow c (Product.price p) (Product.stock_quantity p) (Product.name p)).
  split; [done|]. apply select_cart_row. exists p. by repeat split.
Qed.

(** C2.  A successful [createOrderFromCart] works on the rows of the cart
    query: the user's cart lines, each with the price of its product as
    stored when the query runs.  It returns a pending order of that user
    whose [total_amount] is the sum over the rows of that price times
    quantity (no discount is ever applied) and appends it to [orders]; it
    adds one order item per row carrying that same price; it lowers the
    [stock_quantity] of each product by the quantity ordered of it and
    leaves the product otherwise as it was; and it deletes the user's cart
    lines and no others. *)
Theorem createOrderFromCart_conservation (oid : string) (now : Z)
    (data : CreateOrder) (db db' : Db.t) (order : Order.t) :
  createOrderFromCart oid now data db = (db', Ok order) →
  let rows := select_cart db (userId data) in
  Forall (λ r, line r ∈ Db.cart db
               ∧ CartItem.user_id (line r) = userId data
               ∧ ∃ p, Db.products db !! CartItem.product_id (line r) = Some p
                      ∧ price r = Product.price p) rows
  ∧ (∀ c, c ∈ Db.cart db → CartItem.user_id c = userId data →
          is_Some (Db.products db !! CartItem.product_id c) →
          c ∈ map line rows)
  ∧ Order.total_amount order = subtotal rows
  ∧ Order.id order = oid
  ∧ Order.user_id order = userId data
  ∧ Order.status order = "pending"
  ∧ Order.payment_status order = "pending"
  ∧ Db.orders db' = Db.orders db ++ [order]
  ∧ (∃ items,
       Db.order_items db' = Db.order_items db ++ items
       ∧ items ≡ₚ map (λ r, OrderItem.mk oid (CartItem.product_id (line r))
                              (CartItem.quantity (line r)) (price r)) rows)
  ∧ (∀ pid p, Db.products db !! pid = Some p →
       ∃ p', Db.products db' !! pid = Some p'
             ∧ Product.stock_quantity p'
               = Product.stock_quantity p - ordered_rows pid rows
             ∧ Product.id p' = Product.id p
             ∧ Product.name p' = Product.name p
             ∧ Product.price p' = Product.price p
             ∧ Product.is_active p' = Product.is_active p)
  ∧ (∀ pid, Db.products db !! pid = None → Db.products db' !! pid = None)
  ∧ Db.cart db'
    = filter (λ c, CartItem.user_id c ≠ userId data) (Db.cart db).
Proof.
  intros Hrun.
  destruct (createOrderFromCart_ok_inv _ _ _ _ _ _ Hrun) as (Hne & Hall & Hfit).
  rewrite (createOrderFromCart_covered _ _ _ _ Hne Hall Hfit) in Hrun.
  cbn zeta in Hrun. injection Hrun as <- <-. cbn zeta.
  split; [|split].
  { apply Forall_forall. intros r Hr.
    apply select_cart_row in Hr as (p & Hc & Hu & Hp & Hprice & _).
    split; [done|]. split; [done|]. by exists p. }
  { intros c. apply select_cart_complete. }
  do 5 (split; [reflexivity|]). split; [|split; [|split; [|split]]].
  - cbn [delete_cart set_cart Db.orders]. by rewrite write_items_orders.
  - eexists. cbn [delete_cart set_cart Db.order_items].
    rewrite write_items_order_items. cbn [insert_order set_orders Db.order_items].
    split; [reflexivity|]. by rewrite map_map.
  - intros pid p Hp. cbn [delete_cart set_cart Db.products].
    rewrite write_items_products, ordered_item_of_row.
    cbn [insert_order set_orders Db.products]. rewrite Hp.
    eexists. split; [reflexivity|]. by repeat split.
  - intros pid Hp. cbn [delete_cart set_cart Db.products].
    rewrite write_items_products. cbn [insert_order set_orders Db.products].
    by rewrite Hp.
  - cbn [delete_cart set_cart Db.cart]. by rewrite write_items_cart.
Qed.

(** A call that throws has written nothing. *)
Lemma createOrderFromCart_throw_inv oid now data db db' m :
  createOrderFromCart oid now data db = (db', Throw m) → db' = db.
Proof.
  unfold createOrderFromCart.
  destruct (select_cart db (userId data)) as [|r rows]; [by intros [= <- _]|].
  destruct (price_lines (r :: rows) 0%Qc []) as [[total items]|m'];
    [|by intros [= <- _]].
  destruct (fits total); cbn [negb]; [done|by intros [= <- _]].
Qed.

(** The order row itself: appended to [orders], pending on both statuses. *)
Lemma createOrderFromCart_order_row oid now data db db' order :
  createOrderFromCart oid now data db = (db', Ok order) →
  Db.orders db' = Db.orders db ++ [order]
  ∧ Order.status order = "pending"
  ∧ Order.payment_status order = "pending"
  ∧ Order.user_id order = userId data
  ∧ Db.coupons db' = Db.coupons db.
Proof.
  intros Hrun. destruct (createOrderFromCart_ok_inv _ _ _ _ _ _ Hrun) as (Hne & Hall & Hfit).
  rewrite (createOrderFromCart_covered _ _ _ _ Hne Hall Hfit) in Hrun.
  cbn zeta in Hrun. injection Hrun as <- <-.
  cbn [delete_cart set_cart Db.orders Db.coupons].
  rewrite write_items_orders, write_items_coupons. by repeat split.
Qed.

(** A row short of stock aborts the call before anything is written: the
    error names the first such row's product and the store is as it was. *)
Lemma createOrderFromCart_insufficient_stock oid now data db :
  Exists (λ r, ¬ covered r) (select_cart db (userId data)) →
  ∃ r, r ∈ select_cart db (userId data)
       ∧ ¬ covered r
       ∧ createOrderFromCart oid now data db
         = (db, Throw (String.append "Insufficient stock for " (name r))).
Proof.
  intros Hex. destruct (first_short _ Hex) as (pre & r & post & Hrows & Hpre & Hr).
  exists r. split; [|split; [done|]].
  - rewrite Hrows. apply elem_of_app. right. by left.
  - unfold createOrderFromCart. rewrite Hrows.
    rewrite (price_lines_short pre post r _ _ Hpre Hr).
    by destruct pre.
Qed.

(** An empty cart is refused, and nothing is written. *)
Lemma createOrderFromCart_empty_cart oid now data db :
  select_cart db (userId data) = [] →
  createOrderFromCart oid now data db = (db, Throw "Cart is empty").
Proof. intros H. unfold createOrderFromCart. by rewrite H. Qed.

End OrderCreation.

Module OrderExamples.
Import orderService.

Definition home : Address := mkAddress "1 Main St" "Springfield" "IL" "62701" "US".

Definition checkout (user : string) : CreateOrder :=
  mkCreateOrder user home None "card".

(** Product A: price 10.00, five in stock. *)
Definition productA (stock : Z) (active : bool) : Product.t :=
  Product.mk "A" "Widget" (units 10) stock active.

(** The specification's scenario: user u1 holds two of A. *)
Definition db : Db.t :=
  Db.mk {[ "A" := productA 5 true ]} [CartItem.mk "line-1" "u1" "A" 2]
        [] [] [CouponExamples.save10] [].

(** The same store after A has been taken off sale. *)
Definition db_inactive : Db.t :=
  Db.mk {[ "A" := productA 5 false ]} [CartItem.mk "line-1" "u1" "A" 2]
        [] [] [] [].

(** One A left, and two users with one A each in their carts. *)
Definition db_last_unit : Db.t :=
  Db.mk {[ "A" := productA 1 true ]}
        [CartItem.mk "line-1" "u1" "A" 1; CartItem.mk "line-2" "u2" "A" 1]
        [] [] [] [].

End OrderExamples.

Section OrderFacts.
Import orderService OrderExamples.

Lemma createOrderFromCart_conservation_witness :
  let db' := (createOrderFromCart "o-1" 7 (checkout "u1") db).1 in
  let order := new_order "o-1" 7 (checkout "u1") (0 + units 10 * Qc_of_Z 2)%Qc in
  let rows := select_cart db "u1" in
  Forall (λ r, line r ∈ Db.cart db
               ∧ CartItem.user_id (line r) = "u1"
               ∧ ∃ p, Db.products db !! CartItem.product_id (line r) = Some p
                      ∧ price r = Product.price p) rows
  ∧ (∀ c, c ∈ Db.cart db → CartItem.user_id c = "u1" →
          is_Some (Db.products db !! CartItem.product_id c) →
          c ∈ map line rows)
  ∧ Order.total_amount order = subtotal rows
  ∧ Order.id order = "o-1"
  ∧ Order.user_id order = "u1"
  ∧ Order.status order = "pending"
  ∧ Order.payment_status order = "pending"
  ∧ Db.orders db' = Db.orders db ++ [order]
  ∧ (∃ items,
       Db.order_items db' = Db.order_items db ++ items
       ∧ items ≡ₚ map (λ r, OrderItem.mk "o-1" (CartItem.product_id (line r))
                              (CartItem.quantity (line r)) (price r)) rows)
  ∧ (∀ pid p, Db.products db !! pid = Some p →
       ∃ p', Db.products db' !! pid = Some p'
             ∧ Product.stock_quantity p'
               = Product.stock_quantity p - ordered_rows pid rows
             ∧ Product.id p' = Product.id p
             ∧ Product.name p' = Product.name p
             ∧ Product.price p' = Product.price p
             ∧ Product.is_active p' = Product.is_active p)
  ∧ (∀ pid, Db.products db !! pid = None → Db.products db' !! pid = None)
  ∧ Db.cart db' = filter (λ c, CartItem.user_id c ≠ "u1") (Db.cart db).
Proof.
  exact (createOrderFromCart_conservation "o-1" 7 (checkout "u1") db _ _ eq_refl).
Defined.

(** The scenario in numbers: total 20.00, one item [A, 2, 10.00], three of
    A left, cart empty, coupon untouched. *)
Example createOrderFromCart_scenario :
  ∃ db' order,
    createOrderFromCart "o-1" 7 (checkout "u1") db = (db', Ok order)
    ∧ Order.total_amount order = units 20
    ∧ Db.order_items db' = [OrderItem.mk "o-1" "A" 2 (units 10)]
    ∧ Product.stock_quantity <$> Db.products db' !! "A" = Some 3
    ∧ Db.cart db' = []
    ∧ Db.coupons db' = Db.coupons db.
Proof.
  eexists _, _. split; [reflexivity|].
  split; [qc_eq|]. by vm_compute.
Qed.

(** C1 at an inactive product: A is off sale with five in stock, the cart
    asks for two; the call does not fail, it creates the order and its
    item, takes two of A and empties the cart. *)
Theorem createOrderFromCart_orders_inactive_product :
  Product.is_active <$> Db.products db_inactive !! "A" = Some false
  ∧ ∃ db' order,
      createOrderFromCart "o-1" 7 (checkout "u1") db_inactive = (db', Ok order)
      ∧ Db.orders db' = [order]
      ∧ Db.order_items db' = [OrderItem.mk "o-1" "A" 2 (units 10)]
      ∧ Product.stock_quantity <$> Db.products db' !! "A" = Some 3
      ∧ Db.cart db' = [].
Proof.
  split; [by vm_compute|].
  eexists _, _. split; [reflexivity|]. by vm_compute.
Qed.

(** The insufficient-stock half of C1 on the scenario store with a single
    A in stock. *)
Example createOrderFromCart_short_of_stock :
  let db1 := set_products (λ _, {[ "A" := productA 1 true ]}) db in
  createOrderFromCart "o-1" 7 (checkout "u1") db1
  = (db1, Throw "Insufficient stock for Widget").
Proof. reflexivity. Qed.

End OrderFacts.

(** ** Coupons at checkout *)

Section CheckoutCoupon.
Import orderService OrderExamples.

(** A request that supplies a coupon code next to the schema's keys. *)
Definition with_coupon (code : option string) (body : RequestBody) : RequestBody :=
  mkRequestBody (body_shippingAddress body) (body_billingAddress body)
    (body_paymentMethod body) code.

Definition request (code : option string) : RequestBody :=
  mkRequestBody (Some home) None None code.

(** C3, as claimed, fails: a code that names no coupon does not abort the
    order. *)
Lemma checkout_ignores_invalid_coupon :
  ¬ (∀ (oid : string) (now : Z) (body : RequestBody) (user code : string)
       (db : Db.t),
       body_couponCode body = Some code →
       couponService.valid
         (couponService.validateCoupon db now code (subtotal (select_cart db user)))
       = false →
       ∃ m, (postOrder oid now body user db).2 = Throw m).
Proof.
  intros H.
  destruct (H "o-1" 7 (request (Some "BOGUS")) "u1" "BOGUS" db eq_refl eq_refl)
    as [m Hm].
  discriminate Hm.
Qed.

(** Nor is a valid coupon applied: SAVE10 would take 2.00 off the scenario's
    20.00, the order is created for 20.00. *)
Example checkout_ignores_valid_coupon :
  couponService.discount (couponService.validateCoupon db 7 "SAVE10" (units 20))
  = units 2
  ∧ ∃ db' order,
      postOrder "o-1" 7 (request (Some "SAVE10")) "u1" db = (db', Ok order)
      ∧ Order.total_amount order = units 20.
Proof.
  split; [qc_eq|]. eexists _, _. split; [reflexivity|]. qc_eq.
Qed.

Lemma write_items_set_coupons oid items f db :
  write_items oid items (set_coupons f db)
  = set_coupons f (write_items oid items db).
Proof.
  revert db. induction items as [|it items IH]; intros db; [done|].
  cbn [write_items]. rewrite <- IH. reflexivity.
Qed.

Lemma createOrderFromCart_set_coupons oid now data f db :
  createOrderFromCart oid now data (set_coupons f db)
  = (set_coupons f (createOrderFromCart oid now data db).1,
     (createOrderFromCart oid now data db).2).
Proof.
  unfold createOrderFromCart.
  change (select_cart (set_coupons f db) (userId data))
    with (select_cart db (userId data)).
  destruct (select_cart db (userId data)) as [|r rows]; [done|].
  destruct (price_lines (r :: rows) 0%Qc []) as [[total items]|m]; [|done].
  destruct (fits total); cbn [negb]; [|done].
  cbn [fst snd]. f_equal.
  change (insert_order ?o (set_coupons f db))
    with (set_coupons f (insert_order o db)).
  rewrite write_items_set_coupons. reflexivity.
Qed.

(** C3, amended.  Order creation takes no coupon: a coupon code in the
    request is dropped by validation, so the outcome is the one of the same
    request without it; the coupons table is neither read nor written; and
    the total of a created order is the undiscounted subtotal. *)
Theorem postOrder_takes_no_coupon (oid : string) (now : Z) (body : RequestBody)
    (user : string) (db : Db.t) :
  postOrder oid now body user db = postOrder oid now (with_coupon None body) user db
  ∧ (∀ coupons,
       postOrder oid now body user (set_coupons (λ _, coupons) db)
       = (set_coupons (λ _, coupons) (postOrder oid now body user db).1,
          (postOrder oid now body user db).2))
  ∧ Db.coupons (postOrder oid now body user db).1 = Db.coupons db
  ∧ (∀ db' order,
       postOrder oid now body user db = (db', Ok order) →
       Order.total_amount order = subtotal (select_cart db user)).
Proof.
  split; [reflexivity|]. split; [|split].
  - intros coupons. unfold postOrder.
    destruct (createOrderSchema_parse body user) as [data|m]; [|done].
    apply createOrderFromCart_set_coupons.
  - unfold postOrder.
    destruct (createOrderSchema_parse body user) as [data|m]; [|done].
    destruct (createOrderFromCart oid now data db) as [db' [order|m]] eqn:E.
    + by apply createOrderFromCart_order_row in E as (_ & _ & _ & _ & ?).
    + by apply createOrderFromCart_throw_inv in E as ->.
  - intros db' order. unfold postOrder, createOrderSchema_parse.
    destruct (body_shippingAddress body) as [a|]; [|done].
    intros E. destruct (createOrderFromCart_ok_inv _ _ _ _ _ _ E) as (Hne & Hall & Hfit).
    rewrite (createOrderFromCart_covered _ _ _ _ Hne Hall Hfit) in E.
    cbn zeta in E. by injection E as _ <-.
Qed.

Lemma postOrder_takes_no_coupon_witness :
  Order.total_amount
    (new_order "o-1" 7 (checkout "u1") (0 + units 10 * Qc_of_Z 2)%Qc)
  = subtotal (select_cart db "u1").
Proof.
  exact (proj2 (proj2 (proj2
    (postOrder_takes_no_coupon "o-1" 7 (request (Some "SAVE10")) "u1" db)))
    _ _ eq_refl).
Defined.

End CheckoutCoupon.

(** ** Statement by statement *)

Section Statements.
Import orderService.

Lemma run_add n m oid now data p db :
  run (n + m) oid now data p db
  = let '(p', db') := run n oid now data p db in run m oid now data p' db'.
Proof.
  revert p db. induction n as [|n IH]; intros p db; [done|].
  cbn [run Nat.add]. destruct (step oid now data p db) as [p' db']. apply IH.
Qed.

Lemma run_returned n oid now data r db :
  run n oid now data (Returned r) db = (Returned r, db).
Proof. induction n as [|n IH]; [done|]. exact IH. Qed.

(** The writing loop takes two statements per item. *)
Lemma run_items oid now data order todo db :
  run (2 * length todo) oid now data (next_item order todo) db
  = (AtDeleteCart order, write_items (Order.id order) todo db).
Proof.
  revert db. induction todo as [|it todo IH]; intros db; [done|].
  replace (2 * length (it :: todo))%nat with (2 + 2 * length todo)%nat
    by (cbn [length]; lia).
  rewrite run_add. cbn [run step next_item]. fold (next_item order todo).
  rewrite IH. reflexivity.
Qed.

(** Run alone, the statements of a call compose to [createOrderFromCart]:
    after [3 + 2 × rows] statements the call has returned what the function
    returns, in the store the function leaves. *)
Lemma run_createOrderFromCart oid now data db :
  run (3 + 2 * length (select_cart db (userId data))) oid now data AtSelectCart db
  = (Returned (createOrderFromCart oid now data db).2,
     (createOrderFromCart oid now data db).1).
Proof.
  unfold createOrderFromCart.
  destruct (select_cart db (userId data)) as [|r rows] eqn:Hrows.
  - cbn [run step Nat.add length Nat.mul]. by rewrite Hrows.
  - replace (3 + 2 * length (r :: rows))%nat
      with (1 + (1 + (2 * length (r :: rows) + 1)))%nat by lia.
    rewrite run_add. cbn [run step]. rewrite Hrows.
    destruct (price_lines (r :: rows) 0%Qc []) as [[total items]|m] eqn:Hp.
    + assert (Hlen : length (r :: rows) = length items).
      { rewrite (price_lines_covered (r :: rows) 0%Qc [])
          in Hp by (by eapply price_lines_ok_inv).
        injection Hp as _ <-. cbn [length]. by rewrite length_map. }
      rewrite run_add. cbn [run step].
      destruct (fits total); cbn [negb].
      * cbn [fst snd]. rewrite Hlen, run_add, run_items. reflexivity.
      * apply run_returned.
    + apply run_returned.
Qed.

End Statements.

(** ** Two checkouts for the same product *)

Section Oversell.
Import orderService OrderExamples.

(** Both calls run their cart query before either writes: first call,
    second call, then the four remaining statements of each (for carts of
    one line). *)
Definition reads_first : list bool :=
  [false; true; false; false; false; false; true; true; true; true].

Definition call1 : call := mkCall "o-1" 7 (checkout "u1").
Definition call2 : call := mkCall "o-2" 8 (checkout "u2").



(** The store that interleaving leaves: two orders, two items, stock -1. *)
Example concurrent_orders_final_stock :
  ∃ oa ob db',
    interleave reads_first call1 call2 AtSelectCart AtSelectCart db_last_unit
    = (Returned (Ok oa), Returned (Ok ob), db')
    ∧ Db.orders db' = [oa; ob]
    ∧ length (Db.order_items db') = 2%nat
    ∧ Product.stock_quantity <$> Db.products db' !! "A" = Some (-1).
Proof. eexists _, _, _. split; [reflexivity|]. by vm_compute. Qed.

(** The decrement is unconditional: whatever the stock is when the
    statement runs, it is lowered by the quantity. *)
Lemma update_stock_unconditional (qty : Z) (pid : string) (db : Db.t) (p : Product.t) :
  Db.products db !! pid = Some p →
  Db.products (update_stock qty pid db) !! pid = Some (take_stock qty p)
  ∧ Product.stock_quantity (take_stock qty p) = Product.stock_quantity p - qty.
Proof.
  intros Hp. split; [|reflexivity].
  unfold update_stock, set_products. cbn [Db.products].
  by rewrite lookup_alter_eq, Hp.
Qed.

(** *** Calls that have read

    Once a call has run its cart query it reads the store no more: what it
    will write and return is fixed by its local variables. *)




















(** *** One call after the other

    Run back to back the second call reads the stock the first one left. *)







End Oversell.

(** ** Payments *)

Section Money.
Local Open Scope Q_scope.









End Money.

Section PaymentIntent.
Import paymentService.








(** The two refusals. *)
Lemma createPaymentIntent_no_order pay_id now answer data w :
  select_order (orderId data) w.2 = [] →
  createPaymentIntent pay_id now answer data w = (w, Throw "Order not found").
Proof.
  destruct w as [st db]. cbn [snd]. intros H. unfold createPaymentIntent.
  by rewrite H.
Qed.

Lemma createPaymentIntent_already_paid pay_id now answer data w order others :
  select_order (orderId data) w.2 = order :: others →
  Order.payment_status order = "paid" →
  createPaymentIntent pay_id now answer data w = (w, Throw "Order is already paid").
Proof.
  destruct w as [st db]. cbn [snd]. intros H Hpaid. unfold createPaymentIntent.
  by rewrite H, Hpaid.
Qed.

(** When the INSERT fails the intent has been created at the processor and
    no payment row is written. *)
Lemma createPaymentIntent_insert_fails pay_id now pi secret data st db order others :
  select_order (orderId data) db = order :: others →
  Order.payment_status order ≠ "paid" →
  Pg.decimal_10_2 (amount data) = None ∨ Pg.varchar 3 (currency data) = false →
  ∃ intent m,
    createPaymentIntent pay_id now (Ok (pi, secret)) data (st, db)
    = ((st ++ [intent], db), Throw m)
    ∧ Stripe.id intent = pi.
Proof.
  intros Hsel Hunpaid Hbad. unfold createPaymentIntent. rewrite Hsel.
  destruct (String.eqb_spec (Order.payment_status order) "paid") as [|_]; [done|].
  cbn [Stripe.create]. unfold insert_payment.
  destruct (Pg.decimal_10_2 (amount data)) as [stored|].
  - destruct Hbad as [|Hcur]; [done|]. rewrite Hcur. cbn [negb].
    by eexists _, _.
  - by eexists _, _.
Qed.

End PaymentIntent.

Module PaymentExamples.
Import paymentService.

(** An order of 20.00 placed by u1 and not yet paid. *)
Definition order1 : Order.t :=
  Order.mk "o-1" "u1" (units 20) "pending" OrderExamples.home OrderExamples.home
    "pending" "card" 7.

Definition db_ordered : Db.t := Db.mk ∅ [] [order1] [] [] [].

(** A payment attempt for it, begun at time 10 under intent "pi_1". *)
Definition payment1 : Payment.t :=
  Payment.mk "pay-1" "o-1" (units 20) "usd" "card" (Some "pi_1") "pending" None 10.

Definition db_pending : Db.t := Db.mk ∅ [] [order1] [] [] [payment1].

(** The processor's record of that intent, in a given status. *)
Definition processor (status : string) : Stripe.t :=
  [Stripe.mkIntent "pi_1" 2000 "usd" ["card"] "o-1" status "pi_1_secret"].

End PaymentExamples.

Section PaymentIntentFacts.
Import paymentService PaymentExamples.


(** What happens there: the intent exists, the INSERT has failed. *)
Example createPaymentIntent_overflow :
  ∃ intent,
    createPaymentIntent "pay-1" 10 (Ok ("pi_1", "pi_1_secret"))
      (mkCreatePaymentIntent "o-1" (units 1000000000) "USD" "card") ([], db_ordered)
    = (([intent], db_ordered), Throw "numeric field overflow")
    ∧ Stripe.amount intent = 100000000000.
Proof. eexists. split; [by vm_compute|]. by vm_compute. Qed.


(** An order of 20.00 charged 1.00: 100 cents at the processor, 1.00 in the
    payment row. *)
Example createPaymentIntent_amount_differs :
  ∃ st' db' payment intent,
    createPaymentIntent "pay-1" 10 (Ok ("pi_1", "pi_1_secret"))
      (mkCreatePaymentIntent "o-1" (units 1) "USD" "card") ([], db_ordered)
    = ((st', db'), Ok (payment, "pi_1_secret"))
    ∧ st' = [intent]
    ∧ Stripe.amount intent = 100
    ∧ Stripe.currency intent = "usd"
    ∧ Payment.amount payment = units 1
    ∧ Order.total_amount order1 = units 20
    ∧ Payment.amount payment ≠ Order.total_amount order1.
Proof.
  eexists _, _, _, _. split; [by vm_compute|]. split; [done|].
  split; [by vm_compute|]. split; [done|]. split; [qc_eq|]. split; [done|].
  by vm_compute.
Qed.

(** An amount of 1.005: the double product is 100.49999999999999, so the
    charge is 100 cents, and the row holds 1.01. *)
Example createPaymentIntent_rounds :
  ∃ w payment intent,
    createPaymentIntent "pay-1" 10 (Ok ("pi_1", "pi_1_secret"))
      (mkCreatePaymentIntent "o-1" (Q2Qc (1005 # 1000)) "USD" "card") ([], db_ordered)
    = (w, Ok (payment, "pi_1_secret"))
    ∧ w.1 = [intent]
    ∧ Stripe.amount intent = 100
    ∧ Payment.amount payment = Q2Qc (101 # 100).
Proof.
  eexists _, _, _. split; [by vm_compute|]. split; [done|].
  split; [by vm_compute|]. qc_eq.
Qed.

(** A currency of more than three characters is refused by the column. *)
Example createPaymentIntent_long_currency :
  (createPaymentIntent "pay-1" 10 (Ok ("pi_1", "pi_1_secret"))
     (mkCreatePaymentIntent "o-1" (units 1) "euro" "card") ([], db_ordered)).2
  = Throw "value too long for type character varying(3)".
Proof. by vm_compute. Qed.

End PaymentIntentFacts.

Section Confirmation.
Import paymentService.

(** The status [confirmPayment] writes to the payment rows, and what it
    does to the order, for a given processor status. *)
Definition payment_status_for (processor_status : string) : string :=
  if String.eqb processor_status "succeeded" then "succeeded" else "failed".

Definition settle_order (processor_status : string) (now : Z) (oid : string)
    (db : Db.t) : Db.t :=
  if String.eqb processor_status "succeeded" then
    update_order_payment_status "paid" now oid db
  else if String.eqb processor_status "payment_failed" then
    update_order_payment_status "failed" now oid db
  else db.

Definition settle_row (status txn : string) (now : Z) (pi : string)
    (p : Payment.t) : Payment.t :=
  if has_intent pi p then settle status txn now p else p.

Lemma has_intent_settle status txn now pi p :
  has_intent pi (settle status txn now p) = has_intent pi p.
Proof. reflexivity. Qed.

Lemma has_intent_settle_row status txn now pi p :
  has_intent pi (settle_row status txn now pi p) = has_intent pi p.
Proof. unfold settle_row. by destruct (has_intent pi p) eqn:E. Qed.

(** The rows an [UPDATE ... RETURNING *] returns are the updated images of
    the rows that matched. *)
Lemma returned_rows status txn now pi (l : list Payment.t) :
  filter (λ p, has_intent pi p = true) (map (settle_row status txn now pi) l)
  = map (settle status txn now) (filter (λ p, has_intent pi p = true) l).
Proof.
  induction l as [|p l IH]; [done|].
  cbn [map]. destruct (decide (has_intent pi p = true)) as [E|E].
  - rewrite (filter_cons_True _ (settle_row status txn now pi p))
      by by rewrite has_intent_settle_row.
    rewrite (filter_cons_True _ p) by done.
    cbn [map]. rewrite IH. unfold settle_row. by rewrite E.
  - rewrite (filter_cons_False _ (settle_row status txn now pi p))
      by by rewrite has_intent_settle_row.
    by rewrite (filter_cons_False _ p).
Qed.

Lemma settle_row_twice status txn now1 now2 pi (l : list Payment.t) :
  map (settle_row status txn now2 pi) (map (settle_row status txn now1 pi) l)
  = map (settle_row status txn now2 pi) l.
Proof.
  rewrite map_map. apply map_ext. intros p. unfold settle_row.
  destruct (has_intent pi p) eqn:E; [|by rewrite E].
  by rewrite has_intent_settle, E.
Qed.

Lemma settle_row_none status txn now pi (l : list Payment.t) :
  filter (λ p, has_intent pi p = true) l = [] →
  map (settle_row status txn now pi) l = l.
Proof.
  induction l as [|p l IH]; [done|].
  destruct (decide (has_intent pi p = true)) as [E|E].
  - by rewrite filter_cons_True.
  - rewrite filter_cons_False by done. intros H. cbn [map].
    rewrite (IH H). unfold settle_row.
    by destruct (has_intent pi p).
Qed.

(** [confirmPayment] once the processor has answered. *)
Lemma confirmPayment_retrieved now pi st db intent :
  Stripe.retrieve pi st = Ok intent →
  confirmPayment now pi (st, db)
  = let status := payment_status_for (Stripe.status intent) in
    let db1 := set_payments (map (settle_row status (Stripe.id intent) now pi)) db in
    match filter (λ p, has_intent pi p = true) (Db.payments db) with
    | [] => ((st, db1), Throw "Payment record not found")
    | p :: _ =>
      ((st, settle_order (Stripe.status intent) now (Payment.order_id p) db1),
       Ok (settle status (Stripe.id intent) now p))
    end.
Proof.
  intros Hget. unfold confirmPayment. rewrite Hget.
  unfold update_payments. cbn [set_payments Db.payments].
  fold (settle_row (payment_status_for (Stripe.status intent)) (Stripe.id intent) now pi).
  unfold payment_status_for.
  change (λ p, if has_intent pi p
               then settle ?s ?t now p else p) with (settle_row s t now pi).
  rewrite returned_rows.
  destruct (filter (λ p, has_intent pi p = true) (Db.payments db)) as [|p rows];
    [reflexivity|].
  cbn [map Payment.order_id settle]. unfold settle_order. cbn zeta.
  by destruct (String.eqb (Stripe.status intent) "succeeded").
Qed.

Lemma retrieve_id pi st intent :
  Stripe.retrieve pi st = Ok intent → Stripe.id intent = pi.
Proof.
  unfold Stripe.retrieve.
  destruct (find _ st) as [i|] eqn:E; [|done].
  intros [= <-]. apply find_some in E as [_ E]. by apply String.eqb_eq in E.
Qed.

(** An unknown reference: "Payment record not found", and no row of the
    store is changed. *)
Lemma confirmPayment_not_found now pi st db intent :
  Stripe.retrieve pi st = Ok intent →
  filter (λ p, has_intent pi p = true) (Db.payments db) = [] →
  confirmPayment now pi (st, db) = ((st, db), Throw "Payment record not found").
Proof.
  intros Hget Hnone. rewrite (confirmPayment_retrieved _ _ _ _ _ Hget), Hnone.
  cbn zeta. unfold set_payments. rewrite settle_row_none by done. by destruct db.
Qed.

Lemma update_order_payment_status_spec status now oid db o :
  o ∈ Db.orders (update_order_payment_status status now oid db) →
  Order.id o = oid →
  Order.payment_status o = status ∧ Order.updated_at o = now.
Proof.
  unfold update_order_payment_status, set_orders. cbn [Db.orders].
  rewrite list_elem_of_fmap. intros (o0 & -> & _).
  case_bool_decide; [done|]. done.
Qed.

(** The "succeeded" half of C5: the payment found under the reference
    becomes succeeded and its order paid. *)
Lemma confirmPayment_succeeded now pi st db intent p rows :
  Stripe.retrieve pi st = Ok intent →
  Stripe.status intent = "succeeded" →
  filter (λ p, has_intent pi p = true) (Db.payments db) = p :: rows →
  ∃ db' p',
    confirmPayment now pi (st, db) = ((st, db'), Ok p')
    ∧ Payment.id p' = Payment.id p
    ∧ Payment.payment_intent_id p' = Some pi
    ∧ Payment.status p' = "succeeded"
    ∧ Payment.updated_at p' = now
    ∧ (∀ o, o ∈ Db.orders db' → Order.id o = Payment.order_id p' →
            Order.payment_status o = "paid" ∧ Order.updated_at o = now).
Proof.
  intros Hget Hst Hrows.
  rewrite (confirmPayment_retrieved _ _ _ _ _ Hget), Hrows, Hst. cbn zeta.
  eexists _, _. split; [reflexivity|].
  split; [done|]. split; [|split; [done|split; [done|]]].
  - assert (Hin : p ∈ filter (λ p, has_intent pi p = true) (Db.payments db))
      by (rewrite Hrows; by left).
    apply list_elem_of_filter in Hin as [Hin _].
    unfold has_intent in Hin. by apply bool_decide_eq_true in Hin.
  - intros o Ho Hid. cbn [settle_order String.eqb Ascii.eqb Bool.eqb] in Ho.
    by eapply update_order_payment_status_spec.
Qed.

(** Every other processor status fails the payment, but only the status
    "payment_failed" reaches the order; under any other one the orders are
    left as they were. *)
Lemma confirmPayment_not_succeeded now pi st db intent p rows :
  Stripe.retrieve pi st = Ok intent →
  Stripe.status intent ≠ "succeeded" →
  filter (λ p, has_intent pi p = true) (Db.payments db) = p :: rows →
  ∃ db' p',
    confirmPayment now pi (st, db) = ((st, db'), Ok p')
    ∧ Payment.status p' = "failed"
    ∧ (Stripe.status intent ≠ "payment_failed" → Db.orders db' = Db.orders db)
    ∧ (Stripe.status intent = "payment_failed" →
       ∀ o, o ∈ Db.orders db' → Order.id o = Payment.order_id p' →
            Order.payment_status o = "failed").
Proof.
  intros Hget Hst Hrows.
  rewrite (confirmPayment_retrieved _ _ _ _ _ Hget), Hrows. cbn zeta.
  eexists _, _. split; [reflexivity|].
  unfold payment_status_for, settle_order.
  destruct (String.eqb_spec (Stripe.status intent) "succeeded"); [done|].
  split; [done|].
  destruct (String.eqb_spec (Stripe.status intent) "payment_failed"); split; try done.
  intros _ o Ho Hid.
  by destruct (update_order_payment_status_spec _ _ _ _ _ Ho Hid).
Qed.

End Confirmation.

Section Reconfirmation.
Import paymentService PaymentExamples.

Lemma update_order_payment_status_twice status now1 now2 oid db :
  Db.orders (update_order_payment_status status now2 oid
               (update_order_payment_status status now1 oid db))
  = Db.orders (update_order_payment_status status now2 oid db).
Proof.
  unfold update_order_payment_status, set_orders. cbn [Db.orders].
  rewrite map_map. apply map_ext. intros o.
  destruct (decide (Order.id o = oid)) as [Hid|Hid].
  - rewrite (bool_decide_eq_true_2 (Order.id o = oid)) by done.
    change (Order.id (mark_order status now1 o)) with (Order.id o).
    by rewrite bool_decide_eq_true_2.
  - rewrite (bool_decide_eq_false_2 (Order.id o = oid)) by done.
    by rewrite bool_decide_eq_false_2.
Qed.

(** Settling twice: what the second settlement leaves is what it would
    have left on the untouched store. *)
Lemma settle_twice pstatus status txn now1 now2 pi oid db :
  settle_order pstatus now2 oid
    (set_payments (map (settle_row status txn now2 pi))
       (settle_order pstatus now1 oid
          (set_payments (map (settle_row status txn now1 pi)) db)))
  = settle_order pstatus now2 oid
      (set_payments (map (settle_row status txn now2 pi)) db).
Proof.
  unfold settle_order.
  destruct (String.eqb pstatus "succeeded");
    [|destruct (String.eqb pstatus "payment_failed")].
  - unfold update_order_payment_status at 1 3. unfold set_orders. f_equal.
    + exact (update_order_payment_status_twice "paid" now1 now2 oid
               (set_payments (map (settle_row status txn now1 pi)) db)).
    + cbn. apply settle_row_twice.
  - unfold update_order_payment_status at 1 3. unfold set_orders. f_equal.
    + exact (update_order_payment_status_twice "failed" now1 now2 oid
               (set_payments (map (settle_row status txn now1 pi)) db)).
    + cbn. apply settle_row_twice.
  - unfold set_payments. cbn. f_equal. apply settle_row_twice.
Qed.

Lemma settle_order_payments pstatus now oid db :
  Db.payments (settle_order pstatus now oid db) = Db.payments db.
Proof.
  unfold settle_order.
  by destruct (String.eqb pstatus "succeeded"), (String.eqb pstatus "payment_failed").
Qed.

(** A repeated confirmation runs both updates again: the second call
    leaves the store, and returns the row, that a single call made at the
    time of the second one would. *)
Lemma confirmPayment_overwrites now1 now2 pi w :
  confirmPayment now2 pi (confirmPayment now1 pi w).1 = confirmPayment now2 pi w.
Proof.
  destruct w as [st db].
  destruct (Stripe.retrieve pi st) as [intent|m] eqn:Hget.
  - rewrite (confirmPayment_retrieved now1 _ _ _ _ Hget). cbn zeta.
    destruct (filter (λ p, has_intent pi p = true) (Db.payments db))
      as [|p rows] eqn:Hrows; cbn [fst].
    + unfold set_payments. rewrite settle_row_none by done. by destruct db.
    + rewrite !(confirmPayment_retrieved now2 _ _ _ _ Hget). cbn zeta.
      rewrite settle_order_payments. cbn [set_payments Db.payments].
      rewrite returned_rows, Hrows. cbn [map].
      change (Payment.order_id (settle _ _ now1 p)) with (Payment.order_id p).
      rewrite settle_twice. reflexivity.
  - unfold confirmPayment. rewrite Hget. cbn [fst]. by rewrite Hget.
Qed.

(** C5 at the processor status "canceled": the payment is failed, the
    order's [payment_status] stays "pending". *)
Theorem confirmPayment_canceled_leaves_order_pending :
  ∃ db' payment order,
    confirmPayment 50 "pi_1" (processor "canceled", db_pending)
    = ((processor "canceled", db'), Ok payment)
    ∧ Payment.status payment = "failed"
    ∧ Db.orders db' = [order]
    ∧ Order.id order = Payment.order_id payment
    ∧ Order.payment_status order = "pending".
Proof. eexists _, _, _. split; [reflexivity|]. by vm_compute. Qed.

(** With "succeeded" the same store ends succeeded and paid. *)
Example confirmPayment_succeeded_scenario :
  ∃ db' payment order,
    confirmPayment 50 "pi_1" (processor "succeeded", db_pending)
    = ((processor "succeeded", db'), Ok payment)
    ∧ Payment.status payment = "succeeded"
    ∧ Payment.transaction_id payment = Some "pi_1"
    ∧ Db.orders db' = [order]
    ∧ Order.payment_status order = "paid".
Proof. eexists _, _, _. split; [reflexivity|]. by vm_compute. Qed.

(** The specification's last scenario: no payment row carries the
    reference. *)
Example confirmPayment_unknown_reference :
  confirmPayment 50 "pi_1" (processor "succeeded", db_ordered)
  = ((processor "succeeded", db_ordered), Throw "Payment record not found").
Proof. reflexivity. Qed.

(** What idempotence asks: a second confirmation after a successful one
    returns the same row and leaves the store as the first left it. *)
Definition confirm_idempotent : Prop :=
  ∀ (now1 now2 : Z) (pi : string) (st : Stripe.t) (db : Db.t)
    (intent : Stripe.PaymentIntent) (w1 : Stripe.t * Db.t) (p1 : Payment.t),
    Stripe.retrieve pi st = Ok intent →
    Stripe.status intent = "succeeded" →
    confirmPayment now1 pi (st, db) = (w1, Ok p1) →
    confirmPayment now2 pi w1 = (w1, Ok p1).

(** C6, as claimed, fails: confirmed at time 50 and again at time 90, the
    payment row carries [updated_at = 90] after the second call. *)
Lemma confirmPayment_not_idempotent : ¬ confirm_idempotent.
Proof.
  intros H.
  specialize (H 50 90 "pi_1" (processor "succeeded") db_pending _ _ _
                eq_refl eq_refl eq_refl).
  discriminate H.
Qed.

(** C6, amended.  With the processor reporting "succeeded", confirming
    twice under the same reference returns a succeeded payment both times
    and leaves the order paid both times; the second call runs both updates
    again, so the payment row and the order carry the time of the second
    call in [updated_at], every other column being as the first call left
    it: the store and the row returned are those of a single call made at
    the later time. *)
Theorem confirmPayment_twice (now1 now2 : Z) (pi : string) (st : Stripe.t)
    (db : Db.t) (intent : Stripe.PaymentIntent) (p : Payment.t)
    (rows : list Payment.t) :
  Stripe.retrieve pi st = Ok intent →
  Stripe.status intent = "succeeded" →
  filter (λ p, has_intent pi p = true) (Db.payments db) = p :: rows →
  ∃ db1 p1 db2 p2,
    confirmPayment now1 pi (st, db) = ((st, db1), Ok p1)
    ∧ confirmPayment now2 pi (st, db1) = ((st, db2), Ok p2)
    ∧ confirmPayment now2 pi (st, db) = ((st, db2), Ok p2)
    ∧ Payment.status p1 = "succeeded" ∧ Payment.status p2 = "succeeded"
    ∧ Payment.id p1 = Payment.id p ∧ Payment.id p2 = Payment.id p
    ∧ Payment.updated_at p1 = now1 ∧ Payment.updated_at p2 = now2
    ∧ (∀ o, o ∈ Db.orders db1 → Order.id o = Payment.order_id p →
            Order.payment_status o = "paid" ∧ Order.updated_at o = now1)
    ∧ (∀ o, o ∈ Db.orders db2 → Order.id o = Payment.order_id p →
            Order.payment_status o = "paid" ∧ Order.updated_at o = now2).
Proof.
  intros Hget Hst Hrows.
  destruct (confirmPayment_succeeded now1 _ _ _ _ _ _ Hget Hst Hrows)
    as (db1 & p1 & Hrun1 & Hid1 & _ & Hs1 & Ht1 & Ho1).
  destruct (confirmPayment_succeeded now2 _ _ _ _ _ _ Hget Hst Hrows)
    as (db2 & p2 & Hrun2 & Hid2 & _ & Hs2 & Ht2 & Ho2).
  assert (Hord1 : Payment.order_id p1 = Payment.order_id p).
  { rewrite (confirmPayment_retrieved _ _ _ _ _ Hget), Hrows in Hrun1.
    by injection Hrun1 as _ <-. }
  assert (Hord2 : Payment.order_id p2 = Payment.order_id p).
  { rewrite (confirmPayment_retrieved _ _ _ _ _ Hget), Hrows in Hrun2.
    by injection Hrun2 as _ <-. }
  exists db1, p1, db2, p2. split; [done|]. split.
  { pose proof (confirmPayment_overwrites now1 now2 pi (st, db)) as Hover.
    rewrite Hrun1 in Hover. cbn [fst] in Hover. by rewrite Hover. }
  split; [done|]. repeat (split; [done|]). split.
  - intros o Ho Hid. apply Ho1; [done | by rewrite Hord1].
  - intros o Ho Hid. apply Ho2; [done | by rewrite Hord2].
Qed.

Lemma confirmPayment_twice_witness :
  ∃ db1 p1 db2 p2,
    confirmPayment 50 "pi_1" (processor "succeeded", db_pending)
    = ((processor "succeeded", db1), Ok p1)
    ∧ confirmPayment 90 "pi_1" (processor "succeeded", db1)
      = ((processor "succeeded", db2), Ok p2)
    ∧ confirmPayment 90 "pi_1" (processor "succeeded", db_pending)
      = ((processor "succeeded", db2), Ok p2)
    ∧ Payment.status p1 = "succeeded" ∧ Payment.status p2 = "succeeded"
    ∧ Payment.id p1 = Payment.id payment1 ∧ Payment.id p2 = Payment.id payment1
    ∧ Payment.updated_at p1 = 50 ∧ Payment.updated_at p2 = 90
    ∧ (∀ o, o ∈ Db.orders db1 → Order.id o = Payment.order_id payment1 →
            Order.payment_status o = "paid" ∧ Order.updated_at o = 50)
    ∧ (∀ o, o ∈ Db.orders db2 → Order.id o = Payment.order_id payment1 →
            Order.payment_status o = "paid" ∧ Order.updated_at o = 90).
Proof.
  exact (confirmPayment_twice 50 90 "pi_1" (processor "succeeded") db_pending
           _ payment1 [] eq_refl eq_refl eq_refl).
Defined.

End Reconfirmation.

(** * Further properties of the services *)

(** ** Checkout: failure, retry, what is left alone *)

Section CheckoutMore.
Import orderService OrderExamples.

Lemma select_cart_delete_cart_same (user : string) (db : Db.t) :
  select_cart (delete_cart user db) user = [].
Proof.
  unfold select_cart, delete_cart, set_cart. cbn [Db.cart].
  change (join_product (Db.mk ?p ?c ?o ?i ?k ?y) user) with (join_product db user).
  induction (Db.cart db) as [|c l IH]; [done|].
  rewrite filter_cons. case_decide as Hu; [|exact IH].
  cbn [omap list_omap]. rewrite IH. unfold join_product.
  by destruct (String.eqb_spec (CartItem.user_id c) user).
Qed.

(** A call that throws has written nothing.  It throws "Cart is empty"
    when the cart query returns no row; it throws "Insufficient stock for"
    a product when some row is short of stock, naming the product of such
    a row; and when every row is covered and the total does not fit the
    DECIMAL(10,2) column it throws "numeric field overflow", raised by the
    INSERT of the order, the first statement that writes. *)
Theorem createOrderFromCart_failure_leaves_store (oid : string) (now : Z)
    (data : CreateOrder) (db : Db.t) :
  let rows := select_cart db (userId data) in
  (∀ db' m, createOrderFromCart oid now data db = (db', Throw m) → db' = db)
  ∧ (rows = [] →
     createOrderFromCart oid now data db = (db, Throw "Cart is empty"))
  ∧ (Exists (λ r, stock_quantity r < CartItem.quantity (line r)) rows →
     ∃ r, r ∈ rows
          ∧ stock_quantity r < CartItem.quantity (line r)
          ∧ createOrderFromCart oid now data db
            = (db, Throw (String.append "Insufficient stock for " (name r))))
  ∧ (rows ≠ [] →
     Forall (λ r, CartItem.quantity (line r) ≤ stock_quantity r) rows →
     Pg.decimal_10_2 (subtotal rows) = None →
     createOrderFromCart oid now data db = (db, Throw "numeric field overflow")).
Proof.
  cbv zeta. split; [|split; [|split]].
  - intros db' m. apply createOrderFromCart_throw_inv.
  - apply createOrderFromCart_empty_cart.
  - intros Hex.
    destruct (createOrderFromCart_insufficient_stock oid now data db)
      as (r & Hr & Hshort & Hthrow).
    { eapply Exists_impl; [exact Hex|]. unfold covered. intros r ?. lia. }
    exists r. split; [done|]. split; [|done]. unfold covered in Hshort. lia.
  - intros Hne Hall Hbig. apply createOrderFromCart_overflow; [done|done|].
    unfold fits. rewrite Hbig. apply bool_decide_eq_false_2. by intros [? ?].
Qed.

Lemma createOrderFromCart_failure_witness :
  let db1 := set_products (λ _, {[ "A" := productA 1 true ]}) db in
  ∃ r, r ∈ select_cart db1 "u1"
       ∧ stock_quantity r < CartItem.quantity (line r)
       ∧ createOrderFromCart "o-1" 7 (checkout "u1") db1
         = (db1, Throw (String.append "Insufficient stock for " (name r))).
Proof.
  apply (createOrderFromCart_failure_leaves_store "o-1" 7 (checkout "u1")
           (set_products (λ _, {[ "A" := productA 1 true ]}) db)).
  apply Exists_cons. left. simpl. lia.
Defined.

(** A price of 99 999 999.99 taken twice does not fit [total_amount]. *)
Example createOrderFromCart_total_too_large :
  let db1 := set_products
               (λ _, {[ "A" := Product.mk "A" "Widget" (Q2Qc (9999999999 # 100)) 5 true ]})
               db in
  createOrderFromCart "o-1" 7 (checkout "u1") db1
  = (db1, Throw "numeric field overflow").
Proof. by vm_compute. Qed.

(** Submitting the same checkout again after it succeeded creates no second
    order: the cart is empty by then, and the store stays as the first call
    left it. *)
Theorem createOrderFromCart_again_is_refused (oid oid' : string) (now now' : Z)
    (data : CreateOrder) (db db' : Db.t) (order : Order.t) :
  createOrderFromCart oid now data db = (db', Ok order) →
  createOrderFromCart oid' now' data db' = (db', Throw "Cart is empty").
Proof.
  intros Hrun. apply createOrderFromCart_empty_cart.
  destruct (createOrderFromCart_ok_inv _ _ _ _ _ _ Hrun) as (Hne & Hall & Hfit).
  rewrite (createOrderFromCart_covered _ _ _ _ Hne Hall Hfit) in Hrun.
  cbn zeta in Hrun. injection Hrun as <- _.
  apply select_cart_delete_cart_same.
Qed.

Lemma createOrderFromCart_again_witness :
  createOrderFromCart "o-2" 9 (checkout "u1")
    (createOrderFromCart "o-1" 7 (checkout "u1") db).1
  = ((createOrderFromCart "o-1" 7 (checkout "u1") db).1, Throw "Cart is empty").
Proof.
  exact (createOrderFromCart_again_is_refused "o-1" "o-2" 7 9 (checkout "u1")
           db _ _ eq_refl).
Defined.

(** A successful checkout touches nothing that belongs to someone else: the
    other users' cart lines stay, in order; the earlier orders and order
    items stay, the new ones come after them; payments and coupons are as
    before; a product that no cart row names keeps its row. *)
Theorem createOrderFromCart_leaves_the_rest (oid : string) (now : Z)
    (data : CreateOrder) (db db' : Db.t) (order : Order.t) :
  createOrderFromCart oid now data db = (db', Ok order) →
  Db.cart db' = filter (λ c, CartItem.user_id c ≠ userId data) (Db.cart db)
  ∧ Db.orders db' = Db.orders db ++ [order]
  ∧ (∃ items, Db.order_items db' = Db.order_items db ++ items
              ∧ Forall (λ i, OrderItem.order_id i = Order.id order) items)
  ∧ Db.payments db' = Db.payments db
  ∧ Db.coupons db' = Db.coupons db
  ∧ (∀ pid, (∀ r, r ∈ select_cart db (userId data) →
                  CartItem.product_id (line r) ≠ pid) →
            Db.products db' !! pid = Db.products db !! pid).
Proof.
  intros Hrun.
  destruct (createOrderFromCart_ok_inv _ _ _ _ _ _ Hrun) as (Hne & Hall & Hfit).
  rewrite (createOrderFromCart_covered _ _ _ _ Hne Hall Hfit) in Hrun.
  cbn zeta in Hrun. injection Hrun as <- <-.
  cbn [delete_cart set_cart Db.cart Db.orders Db.order_items Db.payments
       Db.coupons Db.products].
  rewrite write_items_cart, write_items_orders, write_items_order_items,
    write_items_payments, write_items_coupons.
  split; [done|]. split; [done|]. split; [|split; [done|split; [done|]]].
  - eexists. split; [reflexivity|]. apply Forall_forall.
    intros i (it & -> & _)%list_elem_of_fmap. reflexivity.
  - intros pid Hnone. rewrite write_items_products.
    cbn [insert_order set_orders Db.products].
    assert (Hzero : ordered pid (map item_of_row (select_cart db (userId data))) = 0).
    { revert Hnone. generalize (select_cart db (userId data)).
      induction l as [|r l IH]; intros Hnone; [done|].
      cbn [map ordered foldr item_of_row productId].
      destruct (String.eqb_spec (CartItem.product_id (line r)) pid) as [Heq|_].
      - exfalso. eapply Hnone; [by left | done].
      - apply IH. intros r' Hr'. apply Hnone. by right. }
    rewrite Hzero. destruct (Db.products db !! pid) as [p|]; [|done].
    cbn. by rewrite take_stock_0.
Qed.

Lemma createOrderFromCart_leaves_the_rest_witness :
  let db' := (createOrderFromCart "o-1" 7 (checkout "u1") db_last_unit).1 in
  Db.cart db' = filter (λ c, CartItem.user_id c ≠ "u1") (Db.cart db_last_unit)
  ∧ Db.orders db'
    = Db.orders db_last_unit
      ++ [new_order "o-1" 7 (checkout "u1") (0 + units 10 * Qc_of_Z 1)%Qc]
  ∧ (∃ items, Db.order_items db' = Db.order_items db_last_unit ++ items
              ∧ Forall (λ i, OrderItem.order_id i = "o-1") items)
  ∧ Db.payments db' = Db.payments db_last_unit
  ∧ Db.coupons db' = Db.coupons db_last_unit
  ∧ (∀ pid, (∀ r, r ∈ select_cart db_last_unit "u1" →
                  CartItem.product_id (line r) ≠ pid) →
            Db.products db' !! pid = Db.products db_last_unit !! pid).
Proof.
  exact (createOrderFromCart_leaves_the_rest "o-1" 7 (checkout "u1")
           db_last_unit _ _ eq_refl).
Defined.

(** The cart total that [getCartTotal] shows is the [total_amount] of the
    order that a successful checkout of that cart creates. *)
Theorem getCartTotal_is_order_total (oid : string) (now : Z)
    (data : CreateOrder) (db db' : Db.t) (order : Order.t) :
  createOrderFromCart oid now data db = (db', Ok order) →
  Order.total_amount order = cartService.getCartTotal (userId data) db.
Proof.
  intros Hrun.
  destruct (createOrderFromCart_ok_inv _ _ _ _ _ _ Hrun) as (Hne & Hall & Hfit).
  rewrite (createOrderFromCart_covered _ _ _ _ Hne Hall Hfit) in Hrun.
  cbn zeta in Hrun. injection Hrun as _ <-. cbn [new_order Order.total_amount].
  unfold cartService.getCartTotal.
  destruct (select_cart db (userId data)) as [|r rows] eqn:E; [done|].
  clear. generalize (r :: rows). intros l.
  induction l as [|r' l IH]; [done|].
  cbn [subtotal foldr]. fold (subtotal l). rewrite IH. ring.
Qed.

Lemma getCartTotal_is_order_total_witness :
  Order.total_amount
    (new_order "o-1" 7 (checkout "u1") (0 + units 10 * Qc_of_Z 2)%Qc)
  = cartService.getCartTotal "u1" db.
Proof.
  exact (getCartTotal_is_order_total "o-1" 7 (checkout "u1") db _ _ eq_refl).
Defined.

(** An empty cart totals zero. *)
Example getCartTotal_empty : cartService.getCartTotal "u9" db = 0%Qc.
Proof. reflexivity. Qed.


End CheckoutMore.

(** ** Orders after creation *)

Section OrdersAfterCreation.
Import orderService paymentService.

(** For one of the five known statuses, [updateOrderStatus] rewrites
    [status] and [updated_at] of the orders with that id, whatever their
    current status, and nothing else: every other column of those orders,
    every other order and the number of orders are as before; the row
    returned is the first order with that id, [None] when there is none. *)
Theorem updateOrderStatus_changes_status_only (now : Z) (orderId status : string)
    (db : Db.t) :
  status ∈ validStatuses →
  ∃ db',
    updateOrderStatus now orderId status db
    = (db', Ok (set_status status now
                  <$> head (filter (λ o, String.eqb (Order.id o) orderId = true)
                                   (Db.orders db))))
    ∧ (∀ i o, Db.orders db !! i = Some o →
         ∃ o', Db.orders db' !! i = Some o'
               ∧ Order.id o' = Order.id o
               ∧ Order.user_id o' = Order.user_id o
               ∧ Order.total_amount o' = Order.total_amount o
               ∧ Order.payment_status o' = Order.payment_status o
               ∧ (Order.id o = orderId →
                  Order.status o' = status ∧ Order.updated_at o' = now)
               ∧ (Order.id o ≠ orderId → o' = o))
    ∧ length (Db.orders db') = length (Db.orders db).
Proof.
  intros Hin. unfold updateOrderStatus.
  assert (Hex : existsb (String.eqb status) validStatuses = true).
  { apply existsb_exists. exists status. split; [by apply list_elem_of_In|].
    apply String.eqb_refl. }
  rewrite Hex. cbn [negb]. eexists. split; [|split].
  - f_equal. f_equal. cbn [set_orders Db.orders].
    induction (Db.orders db) as [|o l IH]; [done|].
    cbn [map]. destruct (String.eqb (Order.id o) orderId) eqn:E.
    + rewrite !filter_cons_True by done. reflexivity.
    + rewrite !filter_cons_False by (by rewrite E). exact IH.
  - intros i o Hi. cbn [set_orders Db.orders].
    rewrite list_lookup_fmap, Hi. cbn [fmap option_fmap option_map].
    eexists. split; [reflexivity|].
    destruct (String.eqb_spec (Order.id o) orderId) as [Heq|Hne]; cbn.
    + repeat split; done.
    + repeat split; done.
  - cbn [set_orders Db.orders]. apply length_map.
Qed.

Lemma updateOrderStatus_witness :
  ∃ db',
    updateOrderStatus 30 "o-1" "shipped" PaymentExamples.db_ordered
    = (db', Ok (set_status "shipped" 30
                  <$> head (filter (λ o, String.eqb (Order.id o) "o-1" = true)
                                   (Db.orders PaymentExamples.db_ordered))))
    ∧ (∀ i o, Db.orders PaymentExamples.db_ordered !! i = Some o →
         ∃ o', Db.orders db' !! i = Some o'
               ∧ Order.id o' = Order.id o
               ∧ Order.user_id o' = Order.user_id o
               ∧ Order.total_amount o' = Order.total_amount o
               ∧ Order.payment_status o' = Order.payment_status o
               ∧ (Order.id o = "o-1" →
                  Order.status o' = "shipped" ∧ Order.updated_at o' = 30)
               ∧ (Order.id o ≠ "o-1" → o' = o))
    ∧ length (Db.orders db') = length (Db.orders PaymentExamples.db_ordered).
Proof.
  apply (updateOrderStatus_changes_status_only 30 "o-1" "shipped"
           PaymentExamples.db_ordered).
  unfold validStatuses. do 2 right. left.
Defined.

(** Any other status, however close ("Shipped", "canceled"), is refused
    with "Invalid order status" and the store is not touched; and that is
    the only way the call fails. *)
Theorem updateOrderStatus_invalid_iff (now : Z) (orderId status : string)
    (db : Db.t) :
  (status ∉ validStatuses ↔
   updateOrderStatus now orderId status db = (db, Throw "Invalid order status"))
  ∧ (status ∉ validStatuses ↔ Js.is_ok (updateOrderStatus now orderId status db).2 = false).
Proof.
  unfold updateOrderStatus.
  destruct (existsb (String.eqb status) validStatuses) eqn:E; cbn [negb].
  - apply existsb_exists in E as (s' & Hin & ->%String.eqb_eq).
    apply list_elem_of_In in Hin. split; split; try done.
  - assert (Hnot : status ∉ validStatuses).
    { intros Hin. apply not_true_iff_false in E. apply E, existsb_exists.
      exists status. split; [by apply list_elem_of_In | apply String.eqb_refl]. }
    split; split; done.
Qed.

Example updateOrderStatus_is_case_sensitive :
  updateOrderStatus 30 "o-1" "Shipped" PaymentExamples.db_ordered
  = (PaymentExamples.db_ordered, Throw "Invalid order status").
Proof. reflexivity. Qed.

(** With a user id given, [getOrderById] returns an order only if it has
    that id and belongs to that user, and returns none exactly when the
    user has no order of that id. *)
Theorem getOrderById_own_orders_only (orderId user : string) (db : Db.t) :
  user ≠ "" →
  (∀ o, getOrderById orderId (Some user) db = Some o →
        o ∈ Db.orders db ∧ Order.id o = orderId ∧ Order.user_id o = user)
  ∧ (getOrderById orderId (Some user) db = None ↔
     ∀ o, o ∈ Db.orders db → ¬ (Order.id o = orderId ∧ Order.user_id o = user)).
Proof.
  intros Hu. unfold getOrderById, owner_filter.
  destruct (String.eqb_spec user "") as [|_]; [done|].
  split.
  - intros o Ho. apply head_Some_elem_of in Ho.
    apply list_elem_of_filter in Ho as [Hp Hin].
    apply andb_true_iff in Hp as [Hid%String.eqb_eq Hus%String.eqb_eq]. done.
  - rewrite head_None. split.
    + intros Hnil o Hin [Hid Hus].
      assert (Hmem : o ∈ filter (λ o, String.eqb (Order.id o) orderId
                                      && String.eqb (Order.user_id o) user = true)
                                (Db.orders db)).
      { apply list_elem_of_filter. split; [|done].
        by rewrite Hid, Hus, !String.eqb_refl. }
      rewrite Hnil in Hmem. by apply not_elem_of_nil in Hmem.
    + intros Hnone.
      destruct (filter _ (Db.orders db)) as [|o l] eqn:E; [done|].
      assert (Hmem : o ∈ filter (λ o, String.eqb (Order.id o) orderId
                                      && String.eqb (Order.user_id o) user = true)
                                (Db.orders db)) by (rewrite E; by left).
      apply list_elem_of_filter in Hmem as [Hp Hin].
      apply andb_true_iff in Hp as [Hid%String.eqb_eq Hus%String.eqb_eq].
      exfalso. by apply (Hnone o).
Qed.

Lemma getOrderById_witness :
  (∀ o, getOrderById "o-1" (Some "u2") PaymentExamples.db_ordered = Some o →
        o ∈ Db.orders PaymentExamples.db_ordered
        ∧ Order.id o = "o-1" ∧ Order.user_id o = "u2")
  ∧ (getOrderById "o-1" (Some "u2") PaymentExamples.db_ordered = None ↔
     ∀ o, o ∈ Db.orders PaymentExamples.db_ordered →
          ¬ (Order.id o = "o-1" ∧ Order.user_id o = "u2")).
Proof.
  apply (getOrderById_own_orders_only "o-1" "u2" PaymentExamples.db_ordered).
  discriminate.
Defined.

(** u1's order is shown to u1 and to a caller that names no user, not to u2. *)
Example getOrderById_scenario :
  getOrderById "o-1" (Some "u1") PaymentExamples.db_ordered = Some PaymentExamples.order1
  ∧ getOrderById "o-1" None PaymentExamples.db_ordered = Some PaymentExamples.order1
  ∧ getOrderById "o-1" (Some "u2") PaymentExamples.db_ordered = None.
Proof. by vm_compute. Qed.

(** The ledger: the id and [total_amount] of every order, in order. *)
Definition ledger (db : Db.t) : list (string * Qc) :=
  map (λ o, (Order.id o, Order.total_amount o)) (Db.orders db).

Lemma ledger_update_order_payment_status status now oid db :
  ledger (update_order_payment_status status now oid db) = ledger db.
Proof.
  unfold ledger, update_order_payment_status, set_orders. cbn [Db.orders].
  rewrite map_map. apply map_ext. intros o. by case_bool_decide.
Qed.

(** Once an order exists its [total_amount] is never written again: status
    updates, payment intents, confirmations and refunds all leave the
    ledger as it is, whatever their outcome. *)
Theorem total_amount_is_frozen (now : Z) (db : Db.t) (st : Stripe.t) :
  (∀ orderId status,
     ledger (updateOrderStatus now orderId status db).1 = ledger db)
  ∧ (∀ pay_id answer data,
       ledger (createPaymentIntent pay_id now answer data (st, db)).1.2 = ledger db)
  ∧ (∀ pi, ledger (confirmPayment now pi (st, db)).1.2 = ledger db)
  ∧ (∀ answer paymentId,
       ledger (refundPayment now answer paymentId (st, db)).1.2 = ledger db).
Proof.
  split; [|split; [|split]].
  - intros orderId status. unfold updateOrderStatus.
    destruct (negb _); [done|]. unfold ledger. cbn [fst set_orders Db.orders].
    rewrite map_map. apply map_ext. intros o.
    by destruct (String.eqb (Order.id o) orderId).
  - intros pay_id answer data. unfold createPaymentIntent.
    destruct (select_order (orderId data) db) as [|order others]; [done|].
    destruct (String.eqb (Order.payment_status order) "paid"); [done|].
    destruct answer as [[pi secret]|m]; [|done].
    cbn [Stripe.create]. unfold insert_payment.
    destruct (Pg.decimal_10_2 (amount data)); [|done].
    by destruct (Pg.varchar 3 (currency data)).
  - intros pi. unfold confirmPayment.
    destruct (Stripe.retrieve pi st) as [intent|m]; [|done].
    unfold update_payments. cbn [set_payments Db.payments].
    destruct (filter _ _) as [|payment rows]; [done|].
    cbn [fst snd].
    destruct (String.eqb (Stripe.status intent) "succeeded");
      [|destruct (String.eqb (Stripe.status intent) "payment_failed")];
      rewrite ?ledger_update_order_payment_status; reflexivity.
  - intros answer paymentId. unfold refundPayment.
    destruct (filter _ (Db.payments db)) as [|payment rows]; [done|].
    destruct (negb _); [done|]. destruct (negb _); [done|].
    destruct answer as [refundId|m]; [|done].
    cbn [fst snd]. by rewrite ledger_update_order_payment_status.
Qed.

End OrdersAfterCreation.

(** ** The cart *)

Section Cart.
Import cartService.

(** The key of a cart line. *)
Definition line_key (c : CartItem.t) : string * string :=
  (CartItem.user_id c, CartItem.product_id c).

Definition requantify (user pid : string) (q : Z) (c : CartItem.t) : CartItem.t :=
  if same_line user pid c then set_quantity q c else c.

Lemma same_line_requantify user pid q c :
  same_line user pid (requantify user pid q c) = same_line user pid c.
Proof. unfold requantify. by destruct (same_line user pid c) eqn:E. Qed.

Lemma line_key_requantify user pid q c :
  line_key (requantify user pid q c) = line_key c.
Proof. unfold requantify. by destruct (same_line user pid c). Qed.

Lemma same_line_key user pid c :
  same_line user pid c = true ↔ line_key c = (user, pid).
Proof.
  unfold same_line, line_key. rewrite andb_true_iff, !String.eqb_eq.
  split; [by intros [-> ->] | by intros [= -> ->]].
Qed.

Lemma filter_same_line_requantify user pid q (l : list CartItem.t) :
  filter (λ c, same_line user pid c = true) (map (requantify user pid q) l)
  = map (set_quantity q) (filter (λ c, same_line user pid c = true) l).
Proof.
  induction l as [|c l IH]; [done|].
  cbn [map]. destruct (decide (same_line user pid c = true)) as [E|E].
  - rewrite (filter_cons_True _ (requantify user pid q c))
      by by rewrite same_line_requantify.
    rewrite (filter_cons_True _ c) by done.
    cbn [map]. rewrite IH. unfold requantify. by rewrite E.
  - rewrite (filter_cons_False _ (requantify user pid q c))
      by by rewrite same_line_requantify.
    by rewrite (filter_cons_False _ c).
Qed.

Lemma requantify_none user pid q (l : list CartItem.t) :
  filter (λ c, same_line user pid c = true) l = [] →
  map (requantify user pid q) l = l.
Proof.
  induction l as [|c l IH]; [done|].
  destruct (decide (same_line user pid c = true)) as [E|E].
  - by rewrite filter_cons_True.
  - rewrite filter_cons_False by done. intros H. cbn [map]. rewrite (IH H).
    unfold requantify. by destruct (same_line user pid c).
Qed.

Lemma requantify_twice user pid q q' (l : list CartItem.t) :
  map (requantify user pid q') (map (requantify user pid q) l)
  = map (requantify user pid q') l.
Proof.
  rewrite map_map. apply map_ext. intros c. unfold requantify.
  destruct (same_line user pid c) eqn:E; [|by rewrite E].
  change (same_line user pid (set_quantity q c)) with (same_line user pid c).
  by rewrite E.
Qed.

(** [addItem] unfolded along its two paths. *)
Lemma addItem_cases new_id user data db :
  match Db.products db !! productId data with
  | None => addItem new_id user data db = (db, Throw "Product not found")
  | Some p =>
    if negb (Product.is_active p) then
      addItem new_id user data db = (db, Throw "Product is not available")
    else if Product.stock_quantity p <? quantity data then
      addItem new_id user data db = (db, Throw "Insufficient stock")
    else
      match filter (λ c, same_line user (productId data) c = true) (Db.cart db) with
      | existing :: rest =>
        let q := CartItem.quantity existing + quantity data in
        if Product.stock_quantity p <? q then
          addItem new_id user data db = (db, Throw "Insufficient stock")
        else
          addItem new_id user data db
          = (set_cart (map (requantify user (productId data) q)) db,
             Ok (Some (set_quantity q existing)))
      | [] =>
        addItem new_id user data db
        = (set_cart (λ l, l ++ [CartItem.mk new_id user (productId data) (quantity data)]) db,
           Ok (Some (CartItem.mk new_id user (productId data) (quantity data))))
      end
  end.
Proof.
  unfold addItem.
  destruct (Db.products db !! productId data) as [p|]; [|done].
  destruct (negb (Product.is_active p)); [done|].
  destruct (Product.stock_quantity p <? quantity data); [done|].
  destruct (filter _ (Db.cart db)) as [|existing rest] eqn:E; [done|].
  cbn zeta. destruct (Product.stock_quantity p <? _); [done|].
  f_equal. f_equal. cbn [set_cart Db.cart].
  change (λ c, if same_line user (productId data) c
               then set_quantity ?q c else c)
    with (requantify user (productId data) q).
  by rewrite filter_same_line_requantify, E.
Qed.

(** The quantity of the product the user already has in the cart. *)
Definition carted (user pid : string) (db : Db.t) : Z :=
  default 0 (CartItem.quantity
             <$> head (filter (λ c, same_line user pid c = true) (Db.cart db))).

(** A refused [addItem] leaves the store as it was, and it is refused for
    a missing product, an inactive one, or a quantity that, alone or added
    to what the cart already holds of the product, the stock does not
    cover. *)
Theorem addItem_failure_leaves_store (new_id user : string) (data : AddToCart)
    (db db' : Db.t) (m : string) :
  addItem new_id user data db = (db', Throw m) →
  db' = db
  ∧ match Db.products db !! productId data with
    | None => m = "Product not found"
    | Some p =>
      Product.is_active p = false ∧ m = "Product is not available"
      ∨ Product.is_active p = true
        ∧ (Product.stock_quantity p < quantity data
           ∨ Product.stock_quantity p
             < carted user (productId data) db + quantity data)
        ∧ m = "Insufficient stock"
    end.
Proof.
  intros Hrun. pose proof (addItem_cases new_id user data db) as Hc.
  unfold carted.
  destruct (Db.products db !! productId data) as [p|] eqn:Hp.
  2:{ rewrite Hc in Hrun. by injection Hrun as <- <-. }
  destruct (Product.is_active p) eqn:Hact; cbn [negb] in Hc.
  2:{ rewrite Hc in Hrun. injection Hrun as <- <-. split; [done|]. by left. }
  destruct (Z.ltb_spec (Product.stock_quantity p) (quantity data)).
  { rewrite Hc in Hrun. injection Hrun as <- <-. split; [done|].
    right. split; [done|]. split; [by left | done]. }
  destruct (filter _ (Db.cart db)) as [|existing rest] eqn:E.
  { by rewrite Hc in Hrun. }
  cbn zeta in Hc.
  destruct (Z.ltb_spec (Product.stock_quantity p)
              (CartItem.quantity existing + quantity data)).
  2:{ by rewrite Hc in Hrun. }
  rewrite Hc in Hrun. injection Hrun as <- <-. split; [done|].
  right. split; [done|]. split; [|done]. right. cbn. lia.
Qed.

Lemma addItem_failure_witness :
  OrderExamples.db = OrderExamples.db
  ∧ match Db.products OrderExamples.db !! "A" with
    | None => "Insufficient stock" = "Product not found"
    | Some p =>
      Product.is_active p = false ∧ "Insufficient stock" = "Product is not available"
      ∨ Product.is_active p = true
        ∧ (Product.stock_quantity p < 4
           ∨ Product.stock_quantity p < carted "u1" "A" OrderExamples.db + 4)
        ∧ "Insufficient stock" = "Insufficient stock"
    end.
Proof.
  exact (addItem_failure_leaves_store "line-9" "u1" (mkAddToCart "A" 4)
           OrderExamples.db _ _ eq_refl).
Defined.

(** After an accepted [addItem] the user's line for the product holds a
    quantity the stock covers, of a product that is on sale: the line
    returned is in the cart, it is the user's and the product's, and every
    line of that user and product carries its quantity. *)
Theorem addItem_within_stock (new_id user : string) (data : AddToCart)
    (db db' : Db.t) (r : option CartItem.t) :
  addItem new_id user data db = (db', Ok r) →
  ∃ p item,
    Db.products db !! productId data = Some p
    ∧ Product.is_active p = true
    ∧ r = Some item
    ∧ item ∈ Db.cart db'
    ∧ line_key item = (user, productId data)
    ∧ CartItem.quantity item = carted user (productId data) db + quantity data
    ∧ CartItem.quantity item ≤ Product.stock_quantity p
    ∧ (∀ c, c ∈ Db.cart db' → line_key c = (user, productId data) →
            CartItem.quantity c = CartItem.quantity item).
Proof.
  intros Hrun. pose proof (addItem_cases new_id user data db) as Hc.
  unfold carted.
  destruct (Db.products db !! productId data) as [p|] eqn:Hp; [|by rewrite Hc in Hrun].
  destruct (Product.is_active p) eqn:Hact; cbn [negb] in Hc; [|by rewrite Hc in Hrun].
  destruct (Z.ltb_spec (Product.stock_quantity p) (quantity data));
    [by rewrite Hc in Hrun|].
  destruct (filter _ (Db.cart db)) as [|existing rest] eqn:E.
  - rewrite Hc in Hrun. injection Hrun as <- <-.
    eexists p, _. split; [done|]. split; [done|]. split; [done|].
    cbn [set_cart Db.cart]. split; [|split; [done|split; [done|split; [done|]]]].
    { apply elem_of_app. right. by left. }
    intros c [Hc'|Hc']%elem_of_app Hkey.
    + exfalso. apply same_line_key in Hkey.
      assert (Hmem : c ∈ filter (λ c, same_line user (productId data) c = true)
                                (Db.cart db)) by by apply list_elem_of_filter.
      rewrite E in Hmem. by apply not_elem_of_nil in Hmem.
    + by apply list_elem_of_singleton in Hc' as ->.
  - cbn zeta in Hc.
    destruct (Z.ltb_spec (Product.stock_quantity p)
                (CartItem.quantity existing + quantity data));
      [by rewrite Hc in Hrun|].
    rewrite Hc in Hrun. injection Hrun as <- <-.
    assert (Hex : existing ∈ filter (λ c, same_line user (productId data) c = true)
                                    (Db.cart db)) by (rewrite E; by left).
    apply list_elem_of_filter in Hex as [Hsame Hin].
    eexists p, _. split; [done|]. split; [done|]. split; [done|].
    cbn [set_cart Db.cart]. split; [|split; [|split; [done|split; [done|]]]].
    + apply list_elem_of_fmap. exists existing. split; [|done].
      unfold requantify. by rewrite Hsame.
    + by apply same_line_key in Hsame.
    + intros c (c0 & -> & Hc0)%list_elem_of_fmap Hkey.
      rewrite line_key_requantify in Hkey. apply same_line_key in Hkey.
      unfold requantify. by rewrite Hkey.
Qed.

Lemma addItem_within_stock_witness :
  ∃ p item,
    Db.products OrderExamples.db !! "A" = Some p
    ∧ Product.is_active p = true
    ∧ Some (CartItem.mk "line-1" "u1" "A" 5) = Some item
    ∧ item ∈ Db.cart (addItem "line-9" "u1" (mkAddToCart "A" 3) OrderExamples.db).1
    ∧ line_key item = ("u1", "A")
    ∧ CartItem.quantity item = carted "u1" "A" OrderExamples.db + 3
    ∧ CartItem.quantity item ≤ Product.stock_quantity p
    ∧ (∀ c, c ∈ Db.cart (addItem "line-9" "u1" (mkAddToCart "A" 3) OrderExamples.db).1 →
            line_key c = ("u1", "A") →
            CartItem.quantity c = CartItem.quantity item).
Proof.
  exact (addItem_within_stock "line-9" "u1" (mkAddToCart "A" 3)
           OrderExamples.db _ _ eq_refl).
Defined.

(** [addItem] keeps the cart free of duplicate lines: if no two lines share
    user and product before, none do after, whatever the outcome. *)
Theorem addItem_keeps_lines_unique (new_id user : string) (data : AddToCart)
    (db : Db.t) :
  NoDup (map line_key (Db.cart db)) →
  NoDup (map line_key (Db.cart (addItem new_id user data db).1)).
Proof.
  intros Hnd. pose proof (addItem_cases new_id user data db) as Hc.
  destruct (Db.products db !! productId data) as [p|]; [|by rewrite Hc].
  destruct (negb (Product.is_active p)); [by rewrite Hc|].
  destruct (Product.stock_quantity p <? quantity data); [by rewrite Hc|].
  destruct (filter _ (Db.cart db)) as [|existing rest] eqn:E.
  - rewrite Hc. cbn [fst set_cart Db.cart]. rewrite map_app. cbn [map].
    apply NoDup_app. split; [done|]. split; [|apply NoDup_singleton].
    intros k (c & Hk & Hin)%list_elem_of_fmap Hk'%list_elem_of_singleton.
    assert (Hmem : c ∈ filter (λ c, same_line user (productId data) c = true)
                              (Db.cart db)).
    { apply list_elem_of_filter. split; [|done]. apply same_line_key.
      by rewrite <- Hk, Hk'. }
    rewrite E in Hmem. by apply not_elem_of_nil in Hmem.
  - cbn zeta in Hc. destruct (Product.stock_quantity p <? _); rewrite Hc; [done|].
    cbn [fst set_cart Db.cart]. rewrite map_map.
    erewrite map_ext; [exact Hnd|]. intros c. apply line_key_requantify.
Qed.

Lemma addItem_keeps_lines_unique_witness :
  NoDup (map line_key
           (Db.cart (addItem "line-9" "u1" (mkAddToCart "A" 3) OrderExamples.db).1)).
Proof.
  apply (addItem_keeps_lines_unique "line-9" "u1" (mkAddToCart "A" 3)
           OrderExamples.db).
  apply NoDup_singleton.
Defined.

(** Adding a product in two steps leaves what adding both quantities at
    once leaves: when both steps are accepted, the single call with the sum
    is accepted too, with the same store and the same line returned. *)
Theorem addItem_twice_merges (new_id new_id' user pid : string) (q1 q2 : Z)
    (db db1 db2 : Db.t) (r1 r2 : option CartItem.t) :
  (∀ c, c ∈ Db.cart db → 0 ≤ CartItem.quantity c) →
  addItem new_id user (mkAddToCart pid q1) db = (db1, Ok r1) →
  addItem new_id' user (mkAddToCart pid q2) db1 = (db2, Ok r2) →
  addItem new_id user (mkAddToCart pid (q1 + q2)) db = (db2, Ok r2).
Proof.
  intros Hpos Hrun1 Hrun2.
  pose proof (addItem_cases new_id user (mkAddToCart pid q1) db) as Hc1.
  pose proof (addItem_cases new_id' user (mkAddToCart pid q2) db1) as Hc2.
  pose proof (addItem_cases new_id user (mkAddToCart pid (q1 + q2)) db) as Hc3.
  cbn [productId quantity] in Hc1, Hc2, Hc3.
  destruct (Db.products db !! pid) as [p|] eqn:Hp; [|by rewrite Hc1 in Hrun1].
  destruct (Product.is_active p) eqn:Hact; cbn [negb] in Hc1, Hc3;
    [|by rewrite Hc1 in Hrun1].
  destruct (Z.ltb_spec (Product.stock_quantity p) q1) as [|Hq1];
    [by rewrite Hc1 in Hrun1|].
  destruct (filter (λ c, same_line user pid c = true) (Db.cart db))
    as [|existing rest] eqn:E.
  - rewrite Hc1 in Hrun1. injection Hrun1 as <- <-.
    cbn [set_cart Db.products Db.cart] in Hc2. rewrite Hp, Hact in Hc2.
    cbn [negb] in Hc2.
    destruct (Z.ltb_spec (Product.stock_quantity p) q2) as [|Hq2];
      [by rewrite Hc2 in Hrun2|].
    rewrite filter_app, E in Hc2. rewrite filter_cons_True in Hc2
      by (unfold same_line; cbn; by rewrite !String.eqb_refl).
    rewrite filter_nil in Hc2. cbn [app CartItem.quantity] in Hc2. cbn zeta in Hc2.
    destruct (Z.ltb_spec (Product.stock_quantity p) (q1 + q2)) as [|Hsum];
      [by rewrite Hc2 in Hrun2|].
    rewrite Hc2 in Hrun2. injection Hrun2 as <- <-.
    rewrite Hc3. unfold set_cart. cbn [Db.products Db.cart Db.orders
      Db.order_items Db.coupons Db.payments].
    rewrite map_app, (requantify_none _ _ _ _ E). cbn [map].
    unfold requantify at 1. unfold same_line at 1. cbn. by rewrite !String.eqb_refl.
  - cbn zeta in Hc1, Hc3.
    destruct (Z.ltb_spec (Product.stock_quantity p) (CartItem.quantity existing + q1))
      as [|He1]; [by rewrite Hc1 in Hrun1|].
    rewrite Hc1 in Hrun1. injection Hrun1 as <- <-.
    cbn [set_cart Db.products Db.cart] in Hc2. rewrite Hp, Hact in Hc2.
    cbn [negb] in Hc2.
    destruct (Z.ltb_spec (Product.stock_quantity p) q2) as [|Hq2];
      [by rewrite Hc2 in Hrun2|].
    rewrite filter_same_line_requantify, E in Hc2. cbn [map CartItem.quantity
      set_quantity] in Hc2. cbn zeta in Hc2.
    destruct (Z.ltb_spec (Product.stock_quantity p)
                (CartItem.quantity existing + q1 + q2)) as [|He2];
      [by rewrite Hc2 in Hrun2|].
    rewrite Hc2 in Hrun2. injection Hrun2 as <- <-.
    assert (Hex : existing ∈ Db.cart db).
    { assert (Hm : existing ∈ filter (λ c, same_line user pid c = true) (Db.cart db))
        by (rewrite E; by left).
      by apply list_elem_of_filter in Hm as [_ ?]. }
    apply Hpos in Hex.
    destruct (Z.ltb_spec (Product.stock_quantity p) (q1 + q2)); [lia|].
    destruct (Z.ltb_spec (Product.stock_quantity p)
                (CartItem.quantity existing + (q1 + q2))); [lia|].
    rewrite Hc3. unfold set_cart. cbn [Db.products Db.cart Db.orders
      Db.order_items Db.coupons Db.payments].
    rewrite requantify_twice, Z.add_assoc. reflexivity.
Qed.

Lemma addItem_twice_merges_witness :
  addItem "line-9" "u2" (mkAddToCart "A" (1 + 2)) OrderExamples.db
  = ((addItem "line-8" "u2" (mkAddToCart "A" 2)
        (addItem "line-9" "u2" (mkAddToCart "A" 1) OrderExamples.db).1).1,
     Ok (Some (CartItem.mk "line-9" "u2" "A" 3))).
Proof.
  refine (addItem_twice_merges "line-9" "line-8" "u2" "A" 1 2 OrderExamples.db
            _ _ _ _ _ eq_refl eq_refl).
  intros c ->%list_elem_of_singleton. simpl. lia.
Defined.


Lemma filter_none {A} (P : A → Prop) `{!∀ x, Decision (P x)} (l : list A) :
  (∀ x, x ∈ l → ¬ P x) → filter P l = [].
Proof.
  induction l as [|x l IH]; intros Hall; [done|].
  rewrite filter_cons_False by (apply Hall; by left).
  apply IH. intros y Hy. apply Hall. by right.
Qed.




Lemma filter_map_fixed {A} (P : A → Prop) `{!∀ x, Decision (P x)} (f : A → A)
    (l : list A) :
  (∀ x, P x → f x = x) → (∀ x, P (f x) → P x) →
  filter P (map f l) = filter P l.
Proof.
  intros Hfix Hback. induction l as [|x l IH]; [done|].
  cbn [map]. destruct (decide (P x)) as [Hx|Hx].
  - rewrite (Hfix x Hx), !filter_cons_True by done. by rewrite IH.
  - rewrite !filter_cons_False by auto. exact IH.
Qed.

Lemma filter_filter_weaker {A} (P Q : A → Prop) `{!∀ x, Decision (P x)}
    `{!∀ x, Decision (Q x)} (l : list A) :
  (∀ x, P x → Q x) → filter P (filter Q l) = filter P l.
Proof.
  intros Himp. induction l as [|x l IH]; [done|].
  destruct (decide (Q x)) as [Hq|Hq].
  - rewrite (filter_cons_True Q) by done.
    destruct (decide (P x)).
    + rewrite !filter_cons_True by done. by rewrite IH.
    + rewrite !filter_cons_False by done. exact IH.
  - rewrite (filter_cons_False Q) by done.
    rewrite (filter_cons_False P) by auto. exact IH.
Qed.

(** The cart lines of everyone else. *)
Definition others (user : string) (db : Db.t) : list CartItem.t :=
  filter (λ c, CartItem.user_id c ≠ user) (Db.cart db).

(** Whatever a user does to the cart, with whatever arguments and outcome,
    the lines of the other users stay as they are and in their order. *)
Theorem cart_operations_leave_others (user : string) (db : Db.t) :
  (∀ new_id data, others user (addItem new_id user data db).1 = others user db)
  ∧ (∀ id data, others user (updateItem user id data db).1 = others user db)
  ∧ (∀ id, others user (removeItem user id db).1 = others user db)
  ∧ others user (clearCart user db).1 = others user db.
Proof.
  unfold others. split; [|split; [|split]].
  - intros new_id data. pose proof (addItem_cases new_id user data db) as Hc.
    destruct (Db.products db !! productId data) as [p|]; [|by rewrite Hc].
    destruct (negb (Product.is_active p)); [by rewrite Hc|].
    destruct (Product.stock_quantity p <? quantity data); [by rewrite Hc|].
    destruct (filter _ (Db.cart db)) as [|existing rest].
    + rewrite Hc. cbn [fst set_cart Db.cart]. rewrite filter_app.
      rewrite filter_cons_False by (cbn; by intros []).
      by rewrite filter_nil, app_nil_r.
    + cbn zeta in Hc. destruct (Product.stock_quantity p <? _); rewrite Hc; [done|].
      cbn [fst set_cart Db.cart]. apply filter_map_fixed.
      * intros c Hu. unfold requantify, same_line.
        by destruct (String.eqb_spec (CartItem.user_id c) user).
      * intros c. unfold requantify. by destruct (same_line _ _ c).
  - intros id data. unfold updateItem.
    destruct (omap _ (Db.cart db)) as [|product rows]; [done|].
    destruct (negb (Product.is_active product)); [done|].
    destruct (Product.stock_quantity product <? new_quantity data); [done|].
    cbn [fst set_cart Db.cart]. apply filter_map_fixed.
    + intros c Hu. unfold own_line.
      destruct (String.eqb_spec (CartItem.user_id c) user); [done|].
      by rewrite andb_false_r.
    + intros c. by destruct (own_line id user c).
  - intros id. unfold removeItem.
    destruct (filter _ (Db.cart db)) as [|c0 rows]; [done|].
    cbn [fst set_cart Db.cart]. apply filter_filter_weaker.
    intros c Hu. unfold own_line.
    destruct (String.eqb_spec (CartItem.user_id c) user); [done|].
    by rewrite andb_false_r.
  - cbn [clearCart fst orderService.delete_cart set_cart Db.cart].
    by apply filter_filter_weaker.
Qed.

(** A line that is not the caller's cannot be changed or removed by its
    id: both calls answer "Cart item not found" and write nothing. *)
Theorem foreign_line_not_found (user id : string) (data : UpdateCartItem)
    (db : Db.t) :
  (∀ c, c ∈ Db.cart db → CartItem.id c = id → CartItem.user_id c ≠ user) →
  updateItem user id data db = (db, Throw "Cart item not found")
  ∧ removeItem user id db = (db, Throw "Cart item not found").
Proof.
  intros Hforeign.
  assert (Hown : ∀ c, c ∈ Db.cart db → own_line id user c = false).
  { intros c Hin. unfold own_line.
    destruct (String.eqb_spec (CartItem.id c) id) as [Hid|]; [|done].
    destruct (String.eqb_spec (CartItem.user_id c) user) as [Hu|]; [|done].
    exfalso. by apply (Hforeign c). }
  split.
  - unfold updateItem.
    assert (Hnil : omap (λ c, if own_line id user c
                              then Db.products db !! CartItem.product_id c
                              else None) (Db.cart db) = []).
    { revert Hown. generalize (Db.cart db). intros l.
      induction l as [|c l IH]; intros Hown; [done|].
      cbn [omap list_omap]. rewrite (Hown c) by by left.
      apply IH. intros c' Hc'. apply Hown. by right. }
    by rewrite Hnil.
  - unfold removeItem. rewrite filter_none; [done|].
    intros c Hin. by rewrite (Hown c Hin).
Qed.

Lemma foreign_line_witness :
  updateItem "u2" "line-1" (mkUpdateCartItem 1) OrderExamples.db
  = (OrderExamples.db, Throw "Cart item not found")
  ∧ removeItem "u2" "line-1" OrderExamples.db
    = (OrderExamples.db, Throw "Cart item not found").
Proof.
  apply (foreign_line_not_found "u2" "line-1" (mkUpdateCartItem 1) OrderExamples.db).
  intros c ->%list_elem_of_singleton _. discriminate.
Defined.

(** An accepted [updateItem] sets the caller's line to the requested
    quantity, which the stock of an on-sale product covers; the number of
    lines does not change. *)
Theorem updateItem_within_stock (user id : string) (data : UpdateCartItem)
    (db db' : Db.t) (r : option CartItem.t) :
  updateItem user id data db = (db', Ok r) →
  (∃ c p, c ∈ Db.cart db
          ∧ CartItem.id c = id ∧ CartItem.user_id c = user
          ∧ Db.products db !! CartItem.product_id c = Some p
          ∧ Product.is_active p = true
          ∧ new_quantity data ≤ Product.stock_quantity p)
  ∧ (∀ c, c ∈ Db.cart db' → CartItem.id c = id → CartItem.user_id c = user →
          CartItem.quantity c = new_quantity data)
  ∧ map line_key (Db.cart db') = map line_key (Db.cart db).
Proof.
  unfold updateItem.
  destruct (omap _ (Db.cart db)) as [|p rows] eqn:E; [done|].
  destruct (Product.is_active p) eqn:Hact; cbn [negb]; [|done].
  destruct (Z.ltb_spec (Product.stock_quantity p) (new_quantity data)); [done|].
  intros [= <- _]. split; [|split].
  - assert (Hp : p ∈ omap (λ c, if own_line id user c
                                then Db.products db !! CartItem.product_id c
                                else None) (Db.cart db)) by (rewrite E; by left).
    apply list_elem_of_omap in Hp as (c & Hin & Hc).
    destruct (own_line id user c) eqn:Hown; [|done].
    apply andb_true_iff in Hown as [Hid%String.eqb_eq Hu%String.eqb_eq].
    by exists c, p.
  - cbn [set_cart Db.cart]. intros c (c0 & -> & Hin)%list_elem_of_fmap Hid Hu.
    destruct (own_line id user c0) eqn:Hown; [done|].
    exfalso. unfold own_line in Hown. by rewrite Hid, Hu, !String.eqb_refl in Hown.
  - cbn [set_cart Db.cart]. rewrite map_map. apply map_ext. intros c.
    by destruct (own_line id user c).
Qed.

Lemma updateItem_within_stock_witness :
  let db' := (updateItem "u1" "line-1" (mkUpdateCartItem 5) OrderExamples.db).1 in
  (∃ c p, c ∈ Db.cart OrderExamples.db
          ∧ CartItem.id c = "line-1" ∧ CartItem.user_id c = "u1"
          ∧ Db.products OrderExamples.db !! CartItem.product_id c = Some p
          ∧ Product.is_active p = true
          ∧ 5 ≤ Product.stock_quantity p)
  ∧ (∀ c, c ∈ Db.cart db' → CartItem.id c = "line-1" → CartItem.user_id c = "u1" →
          CartItem.quantity c = 5)
  ∧ map line_key (Db.cart db') = map line_key (Db.cart OrderExamples.db).
Proof.
  exact (updateItem_within_stock "u1" "line-1" (mkUpdateCartItem 5)
           OrderExamples.db _ _ eq_refl).
Defined.

End Cart.

(** ** Coupons: unknown codes, redemption *)

Section CouponsMore.
Import couponService CouponExamples.

Lemma find_none_iff {A} (f : A → bool) (l : list A) :
  find f l = None ↔ ∀ x, x ∈ l → f x = false.
Proof.
  induction l as [|x l IH]; cbn [find].
  - split; [|done]. intros _ x Hx. by apply not_elem_of_nil in Hx.
  - destruct (f x) eqn:E.
    + split; [done|]. intros H. specialize (H x). rewrite E in H.
      by discriminate H; left.
    + rewrite IH. split.
      * intros H y [->|Hy]%elem_of_cons; [done | by apply H].
      * intros H y Hy. apply H. by right.
Qed.

(** A coupon that is switched off is answered like a code that does not
    exist: for a code of ASCII characters, when no active coupon is stored
    under the upper-cased code, the answer is "Invalid coupon code" with
    discount 0, whatever the dates, limits and amount. *)
Theorem validateCoupon_inactive_is_unknown (db : Db.t) (now : Z) (code : string)
    (subtotal : Qc) :
  Js.is_ascii code = true →
  (∀ c, c ∈ Db.coupons db → Coupon.code c = Js.toUpperCase code →
        Coupon.is_active c = false) →
  let v := validateCoupon db now code subtotal in
  valid v = false ∧ discount v = 0%Qc ∧ msg v = Some (Text "Invalid coupon code").
Proof.
  intros _ Hoff. unfold validateCoupon.
  assert (Hnone : getByCode db code = None).
  { unfold getByCode. apply find_none_iff. intros c Hin.
    destruct (String.eqb_spec (Coupon.code c) (Js.toUpperCase code)); [|done].
    by rewrite (Hoff c Hin). }
  by rewrite Hnone.
Qed.

Lemma validateCoupon_inactive_witness :
  let v :=
    validateCoupon
      (set_coupons (λ _, [Coupon.mk "c-1" "SAVE10" "percentage"
                            (units 10) (units 15) None None 0 0 1000 false])
                   db)
      500 "save10" (units 20) in
  valid v = false ∧ discount v = 0%Qc ∧ msg v = Some (Text "Invalid coupon code").
Proof.
  apply validateCoupon_inactive_is_unknown; [reflexivity|].
  intros c ->%list_elem_of_singleton _. reflexivity.
Defined.

(** Redeeming a code no coupon carries changes nothing and returns no row. *)
Lemma applyCoupon_unknown_code (db : Db.t) (code : string) :
  Js.is_ascii code = true →
  (∀ c, c ∈ Db.coupons db → Coupon.code c ≠ Js.toUpperCase code) →
  applyCoupon db code = (db, None).
Proof.
  intros _ Hnone. unfold applyCoupon.
  assert (Hmap : map (λ c, if code_matches code c then bump c else c) (Db.coupons db)
                 = Db.coupons db).
  { rewrite <- (map_id (Db.coupons db)) at 2. apply map_ext_in.
    intros c Hin%list_elem_of_In. unfold code_matches.
    destruct (String.eqb_spec (Coupon.code c) (Js.toUpperCase code)); [|done].
    by destruct (Hnone c Hin). }
  unfold set_coupons. cbn [Db.coupons]. rewrite Hmap.
  rewrite filter_none; [by destruct db|].
  intros c Hin. unfold code_matches.
  destruct (String.eqb_spec (Coupon.code c) (Js.toUpperCase code)); [|done].
  by destruct (Hnone c Hin).
Qed.

Lemma applyCoupon_unknown_witness : applyCoupon db "nosuch" = (db, None).
Proof.
  apply applyCoupon_unknown_code; [reflexivity|]. intros c Hc.
  repeat (apply elem_of_cons in Hc as [->|Hc]; [discriminate|]).
  by apply not_elem_of_nil in Hc.
Defined.

Lemma find_map_bump code (l : list Coupon.t) (c : Coupon.t) :
  find (λ c, String.eqb (Coupon.code c) (Js.toUpperCase code) && Coupon.is_active c) l
  = Some c →
  find (λ c, String.eqb (Coupon.code c) (Js.toUpperCase code) && Coupon.is_active c)
       (map (λ c, if code_matches code c then bump c else c) l)
  = Some (bump c).
Proof.
  set (pred := λ c : Coupon.t,
         String.eqb (Coupon.code c) (Js.toUpperCase code) && Coupon.is_active c).
  set (f := λ c : Coupon.t, if code_matches code c then bump c else c).
  assert (Hpred : ∀ x, pred (f x) = pred x).
  { intros x. unfold pred, f. by destruct (code_matches code x). }
  assert (Hbump : ∀ x, pred x = true → f x = bump x).
  { intros x [Hc _]%andb_true_iff. unfold f, code_matches. by rewrite Hc. }
  induction l as [|x l IH]; [done|]. cbn [find map]. rewrite Hpred.
  destruct (pred x) eqn:E; [|exact IH].
  intros [= <-]. by rewrite Hbump.
Qed.

(** The last redemption.  A coupon one use short of its (positive) limit
    validates; once [applyCoupon] has counted that use, the same validation
    is refused with "Coupon usage limit reached". *)
Theorem last_redemption_exhausts (db : Db.t) (now : Z) (code : string)
    (subtotal : Qc) (c : Coupon.t) (limit : Z) :
  getByCode db code = Some c →
  Coupon.usage_limit c = Some limit →
  0 < limit →
  Coupon.used_count c + 1 = limit →
  valid (validateCoupon db now code subtotal) = true →
  validateCoupon (applyCoupon db code).1 now code subtotal
  = reject (Text "Coupon usage limit reached").
Proof.
  intros Hget Hlim Hpos Hlast Hvalid.
  unfold validateCoupon in Hvalid. rewrite Hget in Hvalid.
  destruct ((now <? Coupon.valid_from c) || (Coupon.valid_until c <? now)) eqn:Hwin;
    [discriminate Hvalid|]. clear Hvalid.
  unfold validateCoupon. unfold getByCode, applyCoupon.
  cbn [fst set_coupons Db.coupons].
  rewrite (find_map_bump code _ c Hget).
  cbn [bump Coupon.valid_from Coupon.valid_until Coupon.usage_limit
       Coupon.used_count]. rewrite Hwin, Hlim. cbn [Js.truthy_int default].
  destruct (Z.eqb_spec limit 0); [lia|]. cbn [negb andb]. unfold id.
  destruct (Z.leb_spec limit (Coupon.used_count c + 1)); [done | lia].
Qed.

Lemma last_redemption_witness :
  let fresh := Coupon.mk "c-3" "ONCE" "fixed" (units 5) (units 0)
                 None (Some 1) 0 0 1000 true in
  validateCoupon (applyCoupon (set_coupons (λ _, [fresh]) db) "once").1
    500 "once" (units 20)
  = reject (Text "Coupon usage limit reached").
Proof.
  intros fresh.
  refine (last_redemption_exhausts (set_coupons (λ _, [fresh]) db) 500 "once"
            (units 20) fresh 1 eq_refl eq_refl _ eq_refl eq_refl).
  lia.
Defined.

End CouponsMore.

(** ** Refunds and repeated payments *)

Section Refunds.
Import paymentService PaymentExamples.

Local Abbreviation has_id paymentId :=
  (λ p : Payment.t, String.eqb (Payment.id p) paymentId = true).

Definition refund_row (now : Z) (paymentId : string) (p : Payment.t) : Payment.t :=
  if String.eqb (Payment.id p) paymentId then mark_refunded now p else p.

(** [refundPayment] along its five paths. *)
Lemma refundPayment_cases now answer paymentId st db :
  match filter (has_id paymentId) (Db.payments db) with
  | [] =>
    refundPayment now answer paymentId (st, db) = ((st, db), Throw "Payment not found")
  | payment :: _ =>
    match Payment.payment_intent_id payment with
    | None =>
      refundPayment now answer paymentId (st, db)
      = ((st, db), Throw "Payment intent ID not found")
    | Some pi =>
      if String.eqb pi "" then
        refundPayment now answer paymentId (st, db)
        = ((st, db), Throw "Payment intent ID not found")
      else if String.eqb (Payment.status payment) "succeeded" then
        match answer with
        | Throw m => refundPayment now answer paymentId (st, db) = ((st, db), Throw m)
        | Ok refundId =>
          refundPayment now answer paymentId (st, db)
          = ((st, update_order_payment_status "refunded" now (Payment.order_id payment)
                    (set_payments (map (refund_row now paymentId)) db)),
             Ok ("Payment refunded successfully", refundId))
        end
      else
        refundPayment now answer paymentId (st, db)
        = ((st, db), Throw "Only succeeded payments can be refunded")
    end
  end.
Proof.
  unfold refundPayment.
  destruct (filter _ (Db.payments db)) as [|payment rows]; [done|].
  destruct (Payment.payment_intent_id payment) as [pi|]; [|done].
  destruct (String.eqb pi ""); [done|]. cbn [negb].
  destruct (String.eqb (Payment.status payment) "succeeded"); [|done].
  cbn [negb]. by destruct answer.
Qed.

(** A refund that is refused, by the service or by the processor, writes
    nothing. *)
Theorem refundPayment_failure_leaves_store (now : Z) (answer : result string)
    (paymentId : string) (w w' : Stripe.t * Db.t) (m : string) :
  refundPayment now answer paymentId w = (w', Throw m) → w' = w.
Proof.
  destruct w as [st db]. intros Hrun.
  pose proof (refundPayment_cases now answer paymentId st db) as Hc.
  destruct (filter _ (Db.payments db)) as [|payment rows].
  { rewrite Hc in Hrun. by injection Hrun as <-. }
  destruct (Payment.payment_intent_id payment) as [pi|].
  2:{ rewrite Hc in Hrun. by injection Hrun as <-. }
  destruct (String.eqb pi "").
  { rewrite Hc in Hrun. by injection Hrun as <-. }
  destruct (String.eqb (Payment.status payment) "succeeded").
  2:{ rewrite Hc in Hrun. by injection Hrun as <-. }
  destruct answer as [refundId|m']; rewrite Hc in Hrun; [done|].
  by injection Hrun as <-.
Qed.

Lemma refundPayment_failure_witness :
  (processor "succeeded", db_pending) = (processor "succeeded", db_pending).
Proof.
  exact (refundPayment_failure_leaves_store 60 (Ok "re_1") "pay-1"
           (processor "succeeded", db_pending) _ _ eq_refl).
Defined.

(** A pending payment cannot be refunded. *)
Example refundPayment_pending_refused :
  refundPayment 60 (Ok "re_1") "pay-1" (processor "succeeded", db_pending)
  = ((processor "succeeded", db_pending),
     Throw "Only succeeded payments can be refunded").
Proof. reflexivity. Qed.

Lemma filter_has_id_refund_row now paymentId (l : list Payment.t) :
  filter (has_id paymentId) (map (refund_row now paymentId) l)
  = map (mark_refunded now) (filter (has_id paymentId) l).
Proof.
  induction l as [|p l IH]; [done|].
  cbn [map].
  destruct (decide (String.eqb (Payment.id p) paymentId = true)) as [E|E].
  - rewrite (filter_cons_True _ (refund_row now paymentId p))
      by (unfold refund_row; by rewrite E).
    rewrite (filter_cons_True _ p) by done.
    cbn [map]. rewrite IH. unfold refund_row. by rewrite E.
  - rewrite (filter_cons_False _ (refund_row now paymentId p))
      by (unfold refund_row;
          destruct (String.eqb (Payment.id p) paymentId) eqn:E';
          [by destruct E | by rewrite E']).
    by rewrite (filter_cons_False _ p).
Qed.

Lemma refundPayment_accepted (now : Z) (answer : result string)
    (paymentId : string) (st st' : Stripe.t) (db db' : Db.t) (r : string * string) :
  refundPayment now answer paymentId (st, db) = ((st', db'), Ok r) →
  ∃ payment refundId,
    head (filter (has_id paymentId) (Db.payments db)) = Some payment
    ∧ Payment.status payment = "succeeded"
    ∧ answer = Ok refundId
    ∧ r = ("Payment refunded successfully", refundId)
    ∧ st' = st
    ∧ Db.payments db' = map (refund_row now paymentId) (Db.payments db)
    ∧ (∀ p, p ∈ Db.payments db' → Payment.id p = paymentId →
            Payment.status p = "refunded" ∧ Payment.updated_at p = now)
    ∧ (∀ o, o ∈ Db.orders db' → Order.id o = Payment.order_id payment →
            Order.payment_status o = "refunded").
Proof.
  intros Hrun. pose proof (refundPayment_cases now answer paymentId st db) as Hc.
  destruct (filter _ (Db.payments db)) as [|payment rows]; [by rewrite Hc in Hrun|].
  destruct (Payment.payment_intent_id payment) as [pi|]; [|by rewrite Hc in Hrun].
  destruct (String.eqb pi ""); [by rewrite Hc in Hrun|].
  destruct (String.eqb_spec (Payment.status payment) "succeeded") as [Hst|];
    [|by rewrite Hc in Hrun].
  destruct answer as [refundId|m']; rewrite Hc in Hrun; [|done].
  injection Hrun as <- <- <-.
  exists payment, refundId. repeat (split; [done|]). split.
  - cbn [update_order_payment_status set_orders set_payments Db.payments].
    intros p (p0 & -> & _)%list_elem_of_fmap Hid. unfold refund_row in *.
    destruct (String.eqb_spec (Payment.id p0) paymentId); [done|]. done.
  - intros o Ho Hid.
    by destruct (update_order_payment_status_spec _ _ _ _ _ Ho Hid).
Qed.

(** An accepted refund: the payment was succeeded and carried a processor
    reference; afterwards every payment row of that id is refunded, every
    order of its order id has [payment_status] refunded, and the payments
    of other ids are as before. *)
Theorem refundPayment_refunds (now : Z) (answer : result string)
    (paymentId : string) (st st' : Stripe.t) (db db' : Db.t) (r : string * string) :
  refundPayment now answer paymentId (st, db) = ((st', db'), Ok r) →
  ∃ payment refundId,
    head (filter (has_id paymentId) (Db.payments db)) = Some payment
    ∧ Payment.status payment = "succeeded"
    ∧ answer = Ok refundId
    ∧ r = ("Payment refunded successfully", refundId)
    ∧ st' = st
    ∧ Db.payments db' = map (refund_row now paymentId) (Db.payments db)
    ∧ (∀ p, p ∈ Db.payments db' → Payment.id p = paymentId →
            Payment.status p = "refunded" ∧ Payment.updated_at p = now)
    ∧ (∀ o, o ∈ Db.orders db' → Order.id o = Payment.order_id payment →
            Order.payment_status o = "refunded").
Proof. apply refundPayment_accepted. Qed.

(** The order of 20.00 paid under "pi_1" at time 50. *)
Definition payment_paid : Payment.t :=
  Payment.mk "pay-1" "o-1" (units 20) "usd" "card" (Some "pi_1") "succeeded"
    (Some "pi_1") 50.

Definition db_paid : Db.t :=
  Db.mk ∅ [] [mark_order "paid" 50 order1] [] [] [payment_paid].

Lemma refundPayment_refunds_witness :
  ∃ payment refundId,
    head (filter (has_id "pay-1") (Db.payments db_paid)) = Some payment
    ∧ Payment.status payment = "succeeded"
    ∧ Ok "re_1" = Ok refundId
    ∧ ("Payment refunded successfully", "re_1")
      = ("Payment refunded successfully", refundId)
    ∧ processor "succeeded" = processor "succeeded"
    ∧ Db.payments
        (refundPayment 60 (Ok "re_1") "pay-1" (processor "succeeded", db_paid)).1.2
      = map (refund_row 60 "pay-1") (Db.payments db_paid)
    ∧ (∀ p, p ∈ Db.payments
                  (refundPayment 60 (Ok "re_1") "pay-1"
                     (processor "succeeded", db_paid)).1.2 →
            Payment.id p = "pay-1" →
            Payment.status p = "refunded" ∧ Payment.updated_at p = 60)
    ∧ (∀ o, o ∈ Db.orders
                  (refundPayment 60 (Ok "re_1") "pay-1"
                     (processor "succeeded", db_paid)).1.2 →
            Order.id o = Payment.order_id payment →
            Order.payment_status o = "refunded").
Proof.
  exact (refundPayment_refunds 60 (Ok "re_1") "pay-1" (processor "succeeded") _
           db_paid _ _ eq_refl).
Defined.

(** No double refund: after an accepted refund, a second refund of the same
    payment is refused before the processor is asked, and writes nothing. *)
Theorem refundPayment_twice_refused (now now' : Z) (answer answer' : result string)
    (paymentId : string) (w w' : Stripe.t * Db.t) (r : string * string) :
  refundPayment now answer paymentId w = (w', Ok r) →
  refundPayment now' answer' paymentId w'
  = (w', Throw "Only succeeded payments can be refunded").
Proof.
  destruct w as [st db], w' as [st' db']. intros Hrun.
  pose proof (refundPayment_cases now answer paymentId st db) as Hc.
  destruct (filter _ (Db.payments db)) as [|payment rows] eqn:E;
    [by rewrite Hc in Hrun|].
  destruct (Payment.payment_intent_id payment) as [pi|] eqn:Hpi;
    [|by rewrite Hc in Hrun].
  destruct (String.eqb pi "") eqn:Hne; [by rewrite Hc in Hrun|].
  destruct (String.eqb (Payment.status payment) "succeeded");
    [|by rewrite Hc in Hrun].
  destruct answer as [refundId|m']; rewrite Hc in Hrun; [|done].
  injection Hrun as <- <- _.
  pose proof (refundPayment_cases now' answer' paymentId st
                (update_order_payment_status "refunded" now (Payment.order_id payment)
                   (set_payments (map (refund_row now paymentId)) db))) as Hc'.
  cbn [update_order_payment_status set_orders set_payments Db.payments] in Hc'.
  rewrite filter_has_id_refund_row, E in Hc'.
  cbn [map mark_refunded Payment.payment_intent_id Payment.status] in Hc'.
  rewrite Hpi, Hne in Hc'. exact Hc'.
Qed.

Lemma refundPayment_twice_witness :
  refundPayment 70 (Ok "re_2") "pay-1"
    (refundPayment 60 (Ok "re_1") "pay-1" (processor "succeeded", db_paid)).1
  = ((refundPayment 60 (Ok "re_1") "pay-1" (processor "succeeded", db_paid)).1,
     Throw "Only succeeded payments can be refunded").
Proof.
  exact (refundPayment_twice_refused 60 70 (Ok "re_1") (Ok "re_2") "pay-1"
           (processor "succeeded", db_paid) _ _ eq_refl).
Defined.

Lemma filter_has_intent_refund_row now paymentId pi (l : list Payment.t) :
  filter (λ p, has_intent pi p = true) (map (refund_row now paymentId) l)
  = map (refund_row now paymentId) (filter (λ p, has_intent pi p = true) l).
Proof.
  assert (Hint : ∀ p, has_intent pi (refund_row now paymentId p) = has_intent pi p).
  { intros p. unfold refund_row. by destruct (String.eqb (Payment.id p) paymentId). }
  induction l as [|p l IH]; [done|].
  cbn [map]. destruct (decide (has_intent pi p = true)) as [E|E].
  - rewrite (filter_cons_True _ (refund_row now paymentId p)) by by rewrite Hint.
    rewrite (filter_cons_True _ p) by done. cbn [map]. by rewrite IH.
  - rewrite (filter_cons_False _ (refund_row now paymentId p)) by by rewrite Hint.
    by rewrite (filter_cons_False _ p).
Qed.

(** A refund is not final for [confirmPayment]: when the refunded payment
    is confirmed again under its reference, for which the processor still
    reports "succeeded", the payment is succeeded and its order paid once
    more. *)
Theorem confirmPayment_after_refund_reopens (now now' : Z) (answer : result string)
    (paymentId pi : string) (st : Stripe.t) (db db1 : Db.t) (r : string * string)
    (payment : Payment.t) (intent : Stripe.PaymentIntent) :
  refundPayment now answer paymentId (st, db) = ((st, db1), Ok r) →
  head (filter (has_id paymentId) (Db.payments db)) = Some payment →
  head (filter (λ p, has_intent pi p = true) (Db.payments db)) = Some payment →
  Stripe.retrieve pi st = Ok intent →
  Stripe.status intent = "succeeded" →
  (∀ o, o ∈ Db.orders db1 → Order.id o = Payment.order_id payment →
        Order.payment_status o = "refunded")
  ∧ ∃ db2 p2,
      confirmPayment now' pi (st, db1) = ((st, db2), Ok p2)
      ∧ Payment.id p2 = paymentId
      ∧ Payment.status p2 = "succeeded"
      ∧ (∀ o, o ∈ Db.orders db2 → Order.id o = Payment.order_id payment →
              Order.payment_status o = "paid").
Proof.
  intros Hrun Hbyid Hbyref Hget Hst.
  destruct (refundPayment_accepted _ _ _ _ _ _ _ _ Hrun)
    as (payment0 & refundId & Hhead0 & _ & _ & _ & _ & Hpay & _ & Horders).
  rewrite Hbyid in Hhead0. injection Hhead0 as <-.
  split; [exact Horders|].
  assert (Hid : Payment.id payment = paymentId).
  { apply head_Some_elem_of, list_elem_of_filter in Hbyid as [Hid _].
    by apply String.eqb_eq. }
  destruct (filter (λ p, has_intent pi p = true) (Db.payments db))
    as [|p rows] eqn:E; [done|]. injection Hbyref as ->.
  assert (Hrows : filter (λ p, has_intent pi p = true) (Db.payments db1)
                  = mark_refunded now payment :: map (refund_row now paymentId) rows).
  { rewrite Hpay, filter_has_intent_refund_row, E. cbn [map].
    unfold refund_row at 1. by rewrite Hid, String.eqb_refl. }
  destruct (confirmPayment_succeeded now' pi st db1 intent _ _ Hget Hst Hrows)
    as (db2 & p2 & Hrun2 & Hid2 & _ & Hs2 & _ & Ho2).
  exists db2, p2. split; [done|]. split; [by rewrite Hid2|]. split; [done|].
  intros o Ho Hoid.
  assert (Hord : Payment.order_id p2 = Payment.order_id payment).
  { rewrite (confirmPayment_retrieved _ _ _ _ _ Hget), Hrows in Hrun2.
    by injection Hrun2 as _ <-. }
  apply Ho2; [done | by rewrite Hord].
Qed.

Lemma confirmPayment_after_refund_witness :
  let db1 := (refundPayment 60 (Ok "re_1") "pay-1" (processor "succeeded", db_paid)).1.2 in
  (∀ o, o ∈ Db.orders db1 → Order.id o = Payment.order_id payment_paid →
        Order.payment_status o = "refunded")
  ∧ ∃ db2 p2,
      confirmPayment 80 "pi_1" (processor "succeeded", db1)
      = ((processor "succeeded", db2), Ok p2)
      ∧ Payment.id p2 = "pay-1"
      ∧ Payment.status p2 = "succeeded"
      ∧ (∀ o, o ∈ Db.orders db2 → Order.id o = Payment.order_id payment_paid →
              Order.payment_status o = "paid").
Proof.
  exact (confirmPayment_after_refund_reopens 60 80 (Ok "re_1") "pay-1" "pi_1"
           (processor "succeeded") db_paid _ _ payment_paid _
           eq_refl eq_refl eq_refl eq_refl eq_refl).
Defined.

(** A paid order is not charged again: once a confirmation has succeeded,
    [createPaymentIntent] for the order of that payment is refused, no
    request reaches the processor and no payment row is added. *)
Theorem paid_order_is_not_charged_again (now : Z) (pi : string)
    (st st1 : Stripe.t) (db db1 : Db.t) (intent : Stripe.PaymentIntent)
    (p : Payment.t) :
  Stripe.retrieve pi st = Ok intent →
  Stripe.status intent = "succeeded" →
  confirmPayment now pi (st, db) = ((st1, db1), Ok p) →
  ∀ pay_id now' answer data,
    orderId data = Payment.order_id p →
    ∃ m, createPaymentIntent pay_id now' answer data (st1, db1)
         = ((st1, db1), Throw m)
         ∧ (m = "Order is already paid" ∨ m = "Order not found").
Proof.
  intros Hget Hst Hrun pay_id now' answer data Hoid.
  assert (Hpaid : ∀ o, o ∈ Db.orders db1 → Order.id o = Payment.order_id p →
                       Order.payment_status o = "paid").
  { pose proof (confirmPayment_retrieved now pi st db intent Hget) as Hc.
    destruct (filter (λ p, has_intent pi p = true) (Db.payments db))
      as [|p0 rows] eqn:E; [by rewrite Hc in Hrun|].
    destruct (confirmPayment_succeeded now pi st db intent p0 rows Hget Hst E)
      as (db' & p' & Hrun' & _ & _ & _ & _ & Ho).
    rewrite Hrun in Hrun'. injection Hrun' as Hs Hd Hp. subst st1 db1 p.
    intros o Ho' Hid. by destruct (Ho o Ho' Hid). }
  destruct (select_order (orderId data) db1) as [|order others] eqn:Hsel.
  - exists "Order not found". split; [|by right].
    by apply createPaymentIntent_no_order.
  - exists "Order is already paid". split; [|by left].
    eapply createPaymentIntent_already_paid; [exact Hsel|].
    assert (Hin : order ∈ select_order (orderId data) db1) by (rewrite Hsel; by left).
    apply list_elem_of_filter in Hin as [Hid Hin].
    apply Hpaid; [done | by rewrite <- Hoid].
Qed.

Lemma paid_order_witness :
  ∃ m, createPaymentIntent "pay-2" 60 (Ok ("pi_2", "pi_2_secret"))
         (mkCreatePaymentIntent "o-1" (units 20) "usd" "card")
         (processor "succeeded",
          (confirmPayment 50 "pi_1" (processor "succeeded", db_pending)).1.2)
       = ((processor "succeeded",
           (confirmPayment 50 "pi_1" (processor "succeeded", db_pending)).1.2),
          Throw m)
       ∧ (m = "Order is already paid" ∨ m = "Order not found").
Proof.
  exact (paid_order_is_not_charged_again 50 "pi_1" (processor "succeeded") _
           db_pending _ _ _ eq_refl eq_refl eq_refl
           "pay-2" 60 (Ok ("pi_2", "pi_2_secret"))
           (mkCreatePaymentIntent "o-1" (units 20) "usd" "card") eq_refl).
Defined.

Lemma confirmPayment_not_found_witness :
  confirmPayment 50 "pi_1" (processor "succeeded", db_ordered)
  = ((processor "succeeded", db_ordered), Throw "Payment record not found").
Proof.
  exact (confirmPayment_not_found 50 "pi_1" (processor "succeeded") db_ordered
           _ eq_refl eq_refl).
Defined.

(** What a confirmation never touches, whatever its outcome: products and
    their stock, carts, order items, coupons, the processor's records, the
    payments held under other references, and the [status] of any order. *)
Theorem confirmPayment_leaves_the_rest (now : Z) (pi : string)
    (st : Stripe.t) (db : Db.t) :
  let w' := (confirmPayment now pi (st, db)).1 in
  w'.1 = st
  ∧ Db.products w'.2 = Db.products db
  ∧ Db.cart w'.2 = Db.cart db
  ∧ Db.order_items w'.2 = Db.order_items db
  ∧ Db.coupons w'.2 = Db.coupons db
  ∧ filter (λ p, has_intent pi p = false) (Db.payments w'.2)
    = filter (λ p, has_intent pi p = false) (Db.payments db)
  ∧ map (λ o, (Order.id o, Order.status o)) (Db.orders w'.2)
    = map (λ o, (Order.id o, Order.status o)) (Db.orders db).
Proof.
  cbn zeta.
  destruct (Stripe.retrieve pi st) as [intent|m] eqn:Hget.
  2:{ unfold confirmPayment. by rewrite Hget. }
  rewrite (confirmPayment_retrieved _ _ _ _ _ Hget). cbn zeta.
  assert (Hpay : ∀ status txn,
            filter (λ p, has_intent pi p = false)
                   (map (settle_row status txn now pi) (Db.payments db))
            = filter (λ p, has_intent pi p = false) (Db.payments db)).
  { intros status txn. apply filter_map_fixed.
    - intros p Hp. unfold settle_row. by rewrite Hp.
    - intros p. by rewrite has_intent_settle_row. }
  assert (Hord : ∀ oid db0,
            map (λ o, (Order.id o, Order.status o))
                (Db.orders (settle_order (Stripe.status intent) now oid db0))
            = map (λ o, (Order.id o, Order.status o)) (Db.orders db0)).
  { intros oid db0. unfold settle_order.
    destruct (String.eqb (Stripe.status intent) "succeeded");
      [|destruct (String.eqb (Stripe.status intent) "payment_failed"); [|done]];
      unfold update_order_payment_status, set_orders; cbn [Db.orders];
      rewrite map_map; apply map_ext; intros o; by case_bool_decide. }
  destruct (filter (λ p, has_intent pi p = true) (Db.payments db)) as [|p rows].
  - cbn [fst snd set_payments Db.products Db.cart Db.order_items Db.coupons
         Db.payments Db.orders]. by rewrite Hpay.
  - cbn [fst snd]. rewrite Hord, settle_order_payments.
    cbn [set_payments Db.payments Db.orders]. rewrite Hpay.
    unfold settle_order.
    by destruct (String.eqb (Stripe.status intent) "succeeded"),
                (String.eqb (Stripe.status intent) "payment_failed").
Qed.

(** From intent to paid order.  A payment intent is created under a
    reference no payment row carries yet; when the processor later reports
    that reference as succeeded, confirming it returns that very payment,
    now succeeded, with the amount the payment was recorded with, and
    every order of its order id is paid. *)
Theorem createPaymentIntent_then_confirm (pay_id pi secret : string)
    (now now' : Z) (data : CreatePaymentIntent) (st st1 st2 : Stripe.t)
    (db db1 : Db.t) (payment : Payment.t) (secret' : string)
    (intent : Stripe.PaymentIntent) :
  (∀ p, p ∈ Db.payments db → Payment.payment_intent_id p ≠ Some pi) →
  createPaymentIntent pay_id now (Ok (pi, secret)) data (st, db)
  = ((st1, db1), Ok (payment, secret')) →
  Stripe.retrieve pi st2 = Ok intent →
  Stripe.status intent = "succeeded" →
  ∃ db2 p2,
    confirmPayment now' pi (st2, db1) = ((st2, db2), Ok p2)
    ∧ Payment.id payment = pay_id
    ∧ Payment.id p2 = Payment.id payment
    ∧ Payment.order_id p2 = orderId data
    ∧ Payment.amount p2 = Payment.amount payment
    ∧ Payment.status p2 = "succeeded"
    ∧ Payment.transaction_id p2 = Some pi
    ∧ (∀ o, o ∈ Db.orders db2 → Order.id o = orderId data →
            Order.payment_status o = "paid").
Proof.
  intros Hfresh Hcreate Hget Hst. unfold createPaymentIntent in Hcreate.
  destruct (select_order (orderId data) db) as [|order others]; [done|].
  destruct (String.eqb (Order.payment_status order) "paid"); [done|].
  cbn [Stripe.create] in Hcreate. unfold insert_payment in Hcreate.
  destruct (Pg.decimal_10_2 (amount data)) as [stored|]; [|done].
  destruct (Pg.varchar 3 (currency data)); cbn [negb] in Hcreate; [|done].
  injection Hcreate as <- <- <- <-.
  set (created := new_payment pay_id now data stored _).
  assert (Hrows : filter (λ p, has_intent pi p = true)
                         (Db.payments (set_payments (λ l, l ++ [created]) db))
                  = [created]).
  { cbn [set_payments Db.payments]. rewrite filter_app, filter_none.
    - rewrite filter_cons_True, filter_nil; [done|].
      unfold has_intent. cbn. by apply bool_decide_eq_true_2.
    - intros p Hin Hint. unfold has_intent in Hint.
      apply bool_decide_eq_true in Hint. by apply (Hfresh p Hin). }
  destruct (confirmPayment_succeeded now' pi st2 _ intent _ _ Hget Hst Hrows)
    as (db2 & p2 & Hrun & Hid & _ & Hs & _ & Ho).
  pose proof Hrun as Hrun'.
  rewrite (confirmPayment_retrieved _ _ _ _ _ Hget), Hrows in Hrun'.
  injection Hrun' as _ Hp2.
  exists db2, p2. split; [done|]. rewrite <- Hp2 in *. cbn in *.
  repeat (split; [done|]). split.
  - f_equal. by apply retrieve_id in Hget.
  - intros o Hin Hoid. by destruct (Ho o Hin Hoid).
Qed.

Lemma createPaymentIntent_then_confirm_witness :
  ∃ w payment db2 p2,
    createPaymentIntent "pay-1" 10 (Ok ("pi_1", "pi_1_secret"))
      (mkCreatePaymentIntent "o-1" (units 20) "USD" "card") ([], db_ordered)
    = (w, Ok (payment, "pi_1_secret"))
    ∧ confirmPayment 50 "pi_1" (processor "succeeded", w.2)
      = ((processor "succeeded", db2), Ok p2)
    ∧ Payment.id payment = "pay-1"
    ∧ Payment.id p2 = Payment.id payment
    ∧ Payment.order_id p2 = "o-1"
    ∧ Payment.amount p2 = Payment.amount payment
    ∧ Payment.status p2 = "succeeded"
    ∧ Payment.transaction_id p2 = Some "pi_1"
    ∧ (∀ o, o ∈ Db.orders db2 → Order.id o = "o-1" →
            Order.payment_status o = "paid").
Proof.
  assert (Hfresh : ∀ p, p ∈ Db.payments db_ordered →
                        Payment.payment_intent_id p ≠ Some "pi_1").
  { intros p Hp. by apply not_elem_of_nil in Hp. }
  destruct (createPaymentIntent_then_confirm "pay-1" "pi_1" "pi_1_secret" 10 50
              (mkCreatePaymentIntent "o-1" (units 20) "USD" "card")
              [] _ (processor "succeeded") db_ordered _ _ _ _
              Hfresh eq_refl eq_refl eq_refl) as (db2 & p2 & H).
  eexists (_, _), _, db2, p2. split; [reflexivity|]. exact H.
Defined.

End Refunds.
